(** * The V4A-compatible patch parser and applier of [patch_applier.py]

    A shallow embedding of [PatchApplier] and the properties its
    specification states about it.

    Modelling conventions.
    - A Python [str] is a [string]; a character is an [ascii] standing for a
      code point below 256.
    - A Python [int] used as an index is a [Z]; the sentinel [-1] of the
      source is kept.
    - A Python list is a [list]; the slices [l[:k]] and [l[k:]] are only ever
      taken at non-negative [k] and are [take] and [drop].
    - The dictionaries built by the parser are records with the keys of the
      source as fields.
    - The file system is explicit state: a finite map from paths to what the
      regular files hold on disk, a finite set of directories and the log of
      the mutating operations performed.  A file holds UTF-8 text, kept as
      the characters it decodes to.  A read is Python's text mode: a
      carriage return, alone or before a line feed, reaches the program as
      one line feed.  A write is that of a POSIX system and puts the text
      as it is.  An operation that raises in Python returns [None] or a
      flag; the [try]/[except] blocks of the source turn that into [False].
    - A path reaches the operating system as the source writes it and is
      the name of its own object: two different paths are never taken to
      name one file.  A name with a NUL character is refused as Python
      refuses it, and a directory followed by [.] or [..] is a directory.
      Links, and refusals that come from the device (permissions, name
      lengths, a full disk), are outside the model. *)

From Stdlib Require Import ZArith Lia Bool Ascii String List Sorted.
From stdpp Require Import base option list gmap strings.

Local Open Scope Z_scope.
Local Open Scope string_scope.

(** ** Python string primitives *)

Module Py.

(** [str.isspace] on one character: the code points below 256 that Python
    treats as white space. *)
Definition isspace (c : ascii) : bool :=
  let n := N_of_ascii c in
  (((9 <=? n) && (n <=? 13)) || ((28 <=? n) && (n <=? 32))
   || (n =? 133) || (n =? 160))%N.

Fixpoint lstrip (s : string) : string :=
  match s with
  | EmptyString => EmptyString
  | String c s' => if isspace c then lstrip s' else s
  end.

Fixpoint rstrip (s : string) : string :=
  match s with
  | EmptyString => EmptyString
  | String c s' =>
      match rstrip s' with
      | EmptyString => if isspace c then EmptyString else String c EmptyString
      | r => String c r
      end
  end.

(** [s.strip()] *)
Definition strip (s : string) : string := rstrip (lstrip s).

(** The truth value of a string: [False] for the empty one. *)
Definition nonempty (s : string) : bool :=
  match s with EmptyString => false | _ => true end.

(** [s.startswith(p)] *)
Definition startswith (s p : string) : bool := String.prefix p s.

(** [s[n:]] for a non-negative [n] *)
Fixpoint slice_from (n : nat) (s : string) : string :=
  match n, s with
  | O, _ => s
  | S _, EmptyString => EmptyString
  | S n', String _ s' => slice_from n' s'
  end.

Definition newline : ascii := ascii_of_nat 10.

(** [s.split('\n')]: never empty, [''.split('\n') = ['']] *)
Fixpoint split_nl (s : string) : list string :=
  match s with
  | EmptyString => [EmptyString]
  | String c s' =>
      if Ascii.eqb c newline then EmptyString :: split_nl s'
      else match split_nl s' with
           | [] => [String c EmptyString]
           | w :: ws => String c w :: ws
           end
  end.

(** ['\n'.join(l)] *)
Fixpoint join_nl (l : list string) : string :=
  match l with
  | [] => EmptyString
  | [w] => w
  | w :: ws => w ++ String newline (join_nl ws)
  end.

(** [len(l)] *)
Definition len {A} (l : list A) : Z := Z.of_nat (length l).

(** [l[i]] at an index within range; the source never indexes outside. *)
Definition item (l : list string) (i : Z) : string :=
  nth (Z.to_nat i) l EmptyString.

(** [l[:k]] and [l[k:]] for [0 <= k] *)
Definition upto {A} (l : list A) (k : Z) : list A := take (Z.to_nat k) l.
Definition from {A} (l : list A) (k : Z) : list A := drop (Z.to_nat k) l.

End Py.

(** ** Data model *)

(** A hunk as [_parse_hunk] builds it: [{'header', 'lines', 'end_index'}].
    A tagged line is the pair (prefix character, text). *)
Record Hunk := mkHunk {
  header : string;
  hunk_lines : list (ascii * string);
  hunk_end_index : Z
}.

(** A block as [_parse_block] builds it:
    [{'action', 'file_path', 'hunks', 'content', 'end_index'}]. *)
Record Block := mkBlock {
  action : string;
  file_path : string;
  hunks : list Hunk;
  content : list string;
  end_index : Z
}.

(** ** Hunk application ([_find_hunk_location], [_apply_hunk_to_lines]) *)

(** Trimmed comparison [a.strip() == b.strip()]. *)
Definition trim_eqb (a b : string) : bool :=
  String.eqb (Py.strip a) (Py.strip b).

(** First loop of [_find_hunk_location]: the context and removed lines up to
    the first line with another prefix. *)
Fixpoint context_lines (hl : list (ascii * string)) : list string :=
  match hl with
  | [] => []
  | (prefix, line) :: rest =>
      if Ascii.eqb prefix " " then line :: context_lines rest
      else if Ascii.eqb prefix "-" then line :: context_lines rest
      else []
  end.

(** Inner loop [for j, ctx_line in enumerate(context_lines)] at position [i]:
    [true] when [match] is still set at the end. *)
Fixpoint run_matches (lines : list string) (i : Z) (ctx : list string) (j : Z)
  : bool :=
  match ctx with
  | [] => true
  | ctx_line :: rest =>
      if negb (trim_eqb (Py.item lines (i + j)) ctx_line) then false
      else run_matches lines i rest (j + 1)
  end.

(** Outer loop [for i in range(len(lines) - len(context_lines) + 1)], with
    [n] positions left to try from [i]. *)
Fixpoint scan_positions (lines ctx : list string) (n : nat) (i : Z) : Z :=
  match n with
  | O => -1
  | S n' =>
      if run_matches lines i ctx 0 then i
      else scan_positions lines ctx n' (i + 1)
  end.

Definition _find_hunk_location (lines : list string)
    (hl : list (ascii * string)) : Z :=
  let ctx := context_lines hl in
  match ctx with
  | [] => -1
  | _ => scan_positions lines ctx
           (Z.to_nat (Py.len lines - Py.len ctx + 1)) 0
  end.

(** [for i, line in enumerate(lines): if line.strip() == header.strip()],
    counting from [i]; [-1] when the loop ends without a match. *)
Fixpoint header_match (lines : list string) (hdr : string) (i : Z) : Z :=
  match lines with
  | [] => -1
  | line :: rest =>
      if trim_eqb line hdr then i else header_match rest hdr (i + 1)
  end.

(** The four lists and the flag of the partition loop. *)
Record Parts := mkParts {
  context_before : list string;
  context_after : list string;
  removals : list string;
  additions : list string;
  in_changes : bool
}.

Definition parts_step (p : Parts) (e : ascii * string) : Parts :=
  let '(prefix, line) := e in
  if Ascii.eqb prefix " " then
    if in_changes p
    then mkParts (context_before p) (context_after p ++ [line])
                 (removals p) (additions p) (in_changes p)
    else mkParts (context_before p ++ [line]) (context_after p)
                 (removals p) (additions p) (in_changes p)
  else if Ascii.eqb prefix "-" then
    mkParts (context_before p) (context_after p)
            (removals p ++ [line]) (additions p) true
  else if Ascii.eqb prefix "+" then
    mkParts (context_before p) (context_after p)
            (removals p) (additions p ++ [line]) true
  else p.

Definition hunk_parts (hl : list (ascii * string)) : Parts :=
  fold_left parts_step hl (mkParts [] [] [] [] false).

(** [match_idx] after both searches: the header match, else the context
    match; [-1] when neither finds a place. *)
Definition locate (lines : list string) (hunk : Hunk) : Z :=
  let match_idx := header_match lines (header hunk) 0 in
  if (match_idx =? -1)%Z then _find_hunk_location lines (hunk_lines hunk)
  else match_idx.

(** [start_idx] from [match_idx], clamped at zero. *)
Definition start_of (match_idx : Z) (p : Parts) : Z :=
  let start_idx := match_idx - Py.len (context_before p) + 1 in
  if (start_idx <? 0)%Z then 0 else start_idx.

(** [expected_lines] and [actual_lines]: computed by the source and never
    compared. *)
Definition expected_lines (p : Parts) : list string :=
  context_before p ++ removals p ++ context_after p.

Definition actual_lines (lines : list string) (start_idx : Z) (p : Parts)
  : list string :=
  Py.upto (Py.from lines start_idx) (Py.len (expected_lines p)).

Definition region_len (p : Parts) : Z :=
  Py.len (context_before p) + Py.len (removals p) + Py.len (context_after p).

(** [new_lines] for a hunk anchored at [start_idx]. *)
Definition build_new_lines (lines : list string) (start_idx : Z) (p : Parts)
  : list string :=
  Py.upto lines start_idx ++ context_before p ++ additions p
    ++ context_after p ++ Py.from lines (start_idx + region_len p).

Definition _apply_hunk_to_lines (lines : list string) (hunk : Hunk)
  : option (list string) :=
  let match_idx := locate lines hunk in
  if (match_idx =? -1)%Z then None
  else
    let p := hunk_parts (hunk_lines hunk) in
    let start_idx := start_of match_idx p in
    let _unused := actual_lines lines start_idx p in
    Some (build_new_lines lines start_idx p).

(** [for hunk in reversed(hunks)] is [apply_hunks (reverse hunks)]: the loop
    stops at the first hunk that returns [None]. *)
Fixpoint apply_hunks (hs : list Hunk) (lines : list string)
  : option (list string) :=
  match hs with
  | [] => Some lines
  | hunk :: rest =>
      match _apply_hunk_to_lines lines hunk with
      | None => None
      | Some lines' => apply_hunks rest lines'
      end
  end.

(** ** The file system *)

Module Path.

Definition slash : ascii := "/"%char.

Fixpoint all_slashes (s : string) : bool :=
  match s with
  | EmptyString => true
  | String c s' => Ascii.eqb c slash && all_slashes s'
  end.

Fixpoint ends_with_slash (s : string) : bool :=
  match s with
  | EmptyString => false
  | String c EmptyString => Ascii.eqb c slash
  | String _ s' => ends_with_slash s'
  end.

(** [p[:p.rfind('/') + 1]] *)
Fixpoint head_of (p : string) : string :=
  match p with
  | EmptyString => EmptyString
  | String c p' =>
      match head_of p' with
      | EmptyString =>
          if Ascii.eqb c slash then String c EmptyString else EmptyString
      | h => String c h
      end
  end.

(** [s.rstrip('/')] *)
Fixpoint rstrip_slash (s : string) : string :=
  match s with
  | EmptyString => EmptyString
  | String c s' =>
      match rstrip_slash s' with
      | EmptyString =>
          if Ascii.eqb c slash then EmptyString else String c EmptyString
      | r => String c r
      end
  end.

(** [posixpath.dirname] *)
Definition dirname (p : string) : string :=
  let head := head_of p in
  if Py.nonempty head && negb (all_slashes head) then rstrip_slash head
  else head.

(** [posixpath.join] of two components *)
Definition join (a b : string) : string :=
  if Py.startswith b "/" then b
  else if negb (Py.nonempty a) || ends_with_slash a then a ++ b
  else a ++ "/" ++ b.

(** A directory and the directories above it, nearest first; the current
    directory (the empty name) and the root are left out. *)
Fixpoint chain (n : nat) (d : string) : list string :=
  match n with
  | O => []
  | S n' => if all_slashes d then [] else d :: chain n' (dirname d)
  end.

Definition ancestry (d : string) : list string :=
  chain (S (String.length d)) d.

(** The last component of a path, the tail of [posixpath.split]:
    [p[p.rfind('/') + 1:]] *)
Definition tail_of (p : string) : string :=
  Py.slice_from (String.length (head_of p)) p.

(** The names [.] and [..], which the operating system follows to a
    directory that is there already. *)
Definition dot_name (t : string) : bool :=
  String.eqb t "." || String.eqb t "..".

Definition nul : ascii := ascii_of_nat 0.

(** No NUL character in the name: Python raises [ValueError] on any other
    name before the operating system sees it, and [os.path.exists] answers
    [False]. *)
Fixpoint no_nul (s : string) : bool :=
  match s with
  | EmptyString => true
  | String c s' => negb (Ascii.eqb c nul) && no_nul s'
  end.

End Path.

(** The mutating operations, as logged. *)
Inductive Op :=
| OpWrite (path text : string)
| OpMakedirs (path : string)
| OpRemove (path : string).

Record FS := mkFS {
  files : gmap string string;
  dirs : gset string;
  oplog : list Op
}.

Module Os.

(** [os.path.isdir]: the root and every member of [dirs] are directories,
    and so are [.] and [..], alone or after a directory; [False] on a name
    with a NUL.  [n] bounds the steps back through the name. *)
Fixpoint isdir_in (n : nat) (ds : gset string) (d : string) : bool :=
  Path.no_nul d
  && ((Py.nonempty d && Path.all_slashes d)
      || bool_decide (d ∈ ds)
      || (Path.dot_name (Path.tail_of d)
          && match n with
             | O => false
             | S n' =>
                 negb (Py.nonempty (Path.head_of d))
                 || isdir_in n' ds (Path.dirname d)
             end)).

Definition isdir (fs : FS) (d : string) : bool :=
  isdir_in (String.length d) (dirs fs) d.

(** [os.path.isfile] *)
Definition isfile (fs : FS) (p : string) : bool :=
  Path.no_nul p && bool_decide (is_Some (files fs !! p)).

(** [os.path.exists] *)
Definition path_exists (fs : FS) (p : string) : bool :=
  isfile fs p || isdir fs p.

(** What the regular file [p] holds on disk. *)
Definition stored (fs : FS) (p : string) : option string :=
  if isfile fs p && negb (isdir fs p) then files fs !! p else None.

Definition carriage_return : ascii := ascii_of_nat 13.

(** What a read in text mode hands over for the text on disk (the default
    [newline=None] of [open]): a carriage return followed by a line feed,
    and a carriage return alone, become one line feed. *)
Fixpoint universal_newlines (s : string) : string :=
  match s with
  | EmptyString => EmptyString
  | String c s' =>
      if Ascii.eqb c carriage_return then
        match s' with
        | EmptyString => String Py.newline EmptyString
        | String c' s'' =>
            if Ascii.eqb c' Py.newline
            then String Py.newline (universal_newlines s'')
            else String Py.newline (universal_newlines s')
        end
      else String c (universal_newlines s')
  end.

(** [open(p, 'r', encoding='utf-8').read()]: raises on a directory, on a
    missing file and on a name with a NUL. *)
Definition read (fs : FS) (p : string) : option string :=
  universal_newlines <$> stored fs p.

(** The directory that has to exist for [p] to be created: the current
    directory (empty name) always does. *)
Definition parent_ready (fs : FS) (p : string) : bool :=
  let d := Path.dirname p in
  negb (Py.nonempty d) || isdir fs d.

(** [open(p, 'w', encoding='utf-8').write(text)]: raises on a directory, on
    a name with a NUL, and on a new file whose name is empty or ends in a
    slash or whose directory is missing; otherwise the file holds exactly
    [text] afterwards. *)
Definition write (fs : FS) (p text : string) : option FS :=
  if isdir fs p then None
  else if isfile fs p
          || (Path.no_nul p && Py.nonempty p && negb (Path.ends_with_slash p)
              && parent_ready fs p)
  then Some (mkFS (<[p := text]> (files fs)) (dirs fs)
                  (oplog fs ++ [OpWrite p text]))
  else None.

(** [os.makedirs(d)]: raises, with nothing made, when [d] exists or when a
    regular file is in the way.  Otherwise the missing directories are made
    from the top down to [d]; a name with a NUL stops that with
    [ValueError], the directories above it made, and the last [mkdir]
    raises [FileExistsError] when [d] ends in the component [..], which is
    there once the directory before it is.  The flag says whether the call
    returned. *)
Definition makedirs (fs : FS) (d : string) : bool * FS :=
  if path_exists fs d || existsb (isfile fs) (Path.ancestry d)
  then (false, fs)
  else (Path.no_nul d && negb (String.eqb (Path.tail_of d) ".."),
        mkFS (files fs)
             (list_to_set (List.filter Path.no_nul (Path.ancestry d))
              ∪ dirs fs)
             (oplog fs ++ [OpMakedirs d])).

(** [os.remove(p)]: raises unless [p] is a regular file. *)
Definition remove (fs : FS) (p : string) : option FS :=
  if isfile fs p && negb (isdir fs p)
  then Some (mkFS (delete p (files fs)) (dirs fs)
                  (oplog fs ++ [OpRemove p]))
  else None.

End Os.

(** ** The applier *)

Definition _apply_update (fs : FS) (path : string) (hs : list Hunk)
  : bool * FS :=
  if negb (Os.path_exists fs path) then (false, fs)
  else
    match Os.read fs path with
    | None => (false, fs)
    | Some text =>
        let lines := Py.split_nl text in
        match apply_hunks (reverse hs) lines with
        | None => (false, fs)
        | Some lines' =>
            match Os.write fs path (Py.join_nl lines') with
            | None => (false, fs)
            | Some fs' => (true, fs')
            end
        end
    end.

Definition _apply_add (fs : FS) (path : string) (content : list string)
  : bool * FS :=
  let dir_path := Path.dirname path in
  let '(made, fs1) :=
    if Py.nonempty dir_path && negb (Os.path_exists fs dir_path)
    then Os.makedirs fs dir_path
    else (true, fs) in
  if made then
    match Os.write fs1 path (Py.join_nl content) with
    | None => (false, fs1)
    | Some fs2 => (true, fs2)
    end
  else (false, fs1).

Definition _apply_delete (fs : FS) (path : string) : bool * FS :=
  if Os.path_exists fs path then
    match Os.remove fs path with
    | None => (false, fs)
    | Some fs' => (true, fs')
    end
  else (false, fs).

(** One iteration of the loop of [apply_patch].  The helpers above return a
    flag and never raise, so the outer [except] clause has nothing to
    catch. *)
Definition apply_block (base_dir : string) (fs : FS) (block : Block)
  : (string * bool * string) * FS :=
  let path := Path.join base_dir (file_path block) in
  if String.eqb (action block) "Update" then
    let '(success, fs') := _apply_update fs path (hunks block) in
    ((file_path block, success,
      if success then "Updated successfully" else "Failed to apply update"),
     fs')
  else if String.eqb (action block) "Add" then
    let '(success, fs') := _apply_add fs path (content block) in
    ((file_path block, success,
      if success then "Added successfully" else "Failed to add file"), fs')
  else if String.eqb (action block) "Delete" then
    let '(success, fs') := _apply_delete fs path in
    ((file_path block, success,
      if success then "Deleted successfully" else "Failed to delete file"),
     fs')
  else ((file_path block, false, "Unknown action: " ++ action block), fs).

Fixpoint apply_blocks (base_dir : string) (fs : FS) (blocks : list Block)
  : list (string * bool * string) * FS :=
  match blocks with
  | [] => ([], fs)
  | block :: rest =>
      let '(r, fs1) := apply_block base_dir fs block in
      let '(rs, fs2) := apply_blocks base_dir fs1 rest in
      (r :: rs, fs2)
  end.

(** ** The parser *)

Definition BEGIN_PATCH : string := "*** Begin Patch".
Definition END_PATCH : string := "*** End Patch".
Definition UPDATE_FILE : string := "*** Update File:".
Definition ADD_FILE : string := "*** Add File:".
Definition DELETE_FILE : string := "*** Delete File:".

(** [lines[i].strip() == '*** End Patch'] *)
Definition is_end (lines : list string) (i : Z) : bool :=
  String.eqb (Py.strip (Py.item lines i)) END_PATCH.

(** The [while i < len(lines)] loop of [_parse_hunk], with [n] lines left
    from [i]; returns [i] at the exit and the tagged lines collected. *)
Fixpoint hunk_loop (lines : list string) (n : nat) (i : Z)
    (acc : list (ascii * string)) : Z * list (ascii * string) :=
  match n with
  | O => (i, acc)
  | S n' =>
      let line := Py.item lines i in
      if String.eqb (Py.strip line) END_PATCH then (i, acc)
      else if Py.startswith line "@@" then (i - 1, acc)
      else if Py.startswith line " " then
        hunk_loop lines n' (i + 1) (acc ++ [(" "%char, Py.slice_from 1 line)])
      else if Py.startswith line "-" then
        hunk_loop lines n' (i + 1) (acc ++ [("-"%char, Py.slice_from 1 line)])
      else if Py.startswith line "+" then
        hunk_loop lines n' (i + 1) (acc ++ [("+"%char, Py.slice_from 1 line)])
      else (i, acc)
  end.

Definition _parse_hunk (lines : list string) (start_idx : Z) : option Hunk :=
  if negb (Py.startswith (Py.item lines start_idx) "@@") then None
  else
    let hdr := Py.strip (Py.slice_from 2 (Py.item lines start_idx)) in
    let i := start_idx + 1 in
    let '(i', hl) := hunk_loop lines (Z.to_nat (Py.len lines - i)) i [] in
    Some (mkHunk hdr hl (i' - 1)).

(** The search for the action line: [Some (action, file_path, i)] at the
    [break], [None] at an end marker or at the end of the input. *)
Fixpoint find_action (lines : list string) (n : nat) (i : Z)
  : option (string * string * Z) :=
  match n with
  | O => None
  | S n' =>
      let line := Py.strip (Py.item lines i) in
      if Py.startswith line UPDATE_FILE then
        Some ("Update",
              Py.strip (Py.slice_from (String.length UPDATE_FILE) line), i)
      else if Py.startswith line ADD_FILE then
        Some ("Add",
              Py.strip (Py.slice_from (String.length ADD_FILE) line), i)
      else if Py.startswith line DELETE_FILE then
        Some ("Delete",
              Py.strip (Py.slice_from (String.length DELETE_FILE) line), i)
      else if String.eqb line END_PATCH then None
      else find_action lines n' (i + 1)
  end.

(** Delete: [while i < len(lines) and lines[i].strip() != '*** End Patch'] *)
Fixpoint delete_loop (lines : list string) (n : nat) (i : Z) : Z :=
  match n with
  | O => i
  | S n' => if is_end lines i then i else delete_loop lines n' (i + 1)
  end.

(** Add: the same loop, collecting the lines that start with [+]. *)
Fixpoint add_loop (lines : list string) (n : nat) (i : Z)
    (acc : list string) : Z * list string :=
  match n with
  | O => (i, acc)
  | S n' =>
      if is_end lines i then (i, acc)
      else if Py.startswith (Py.item lines i) "+" then
        add_loop lines n' (i + 1) (acc ++ [Py.slice_from 1 (Py.item lines i)])
      else add_loop lines n' (i + 1) acc
  end.

(** Update: the index is reset from the hunk's [end_index], so the loop has
    no structural bound; [None] says that [fuel] iterations did not finish
    it. *)
Fixpoint update_loop (fuel : nat) (lines : list string) (i : Z)
    (acc : list Hunk) : option (Z * list Hunk) :=
  match fuel with
  | O => None
  | S fuel' =>
      if (i <? Py.len lines)%Z && negb (is_end lines i) then
        if Py.startswith (Py.item lines i) "@@" then
          match _parse_hunk lines i with
          | Some hunk =>
              update_loop fuel' lines (hunk_end_index hunk + 1) (acc ++ [hunk])
          | None => update_loop fuel' lines (i + 1) acc
          end
        else update_loop fuel' lines (i + 1) acc
      else Some (i, acc)
  end.

(** [_parse_block]: the outer [option] is the fuel, the inner one the
    [Optional] of the source. *)
Definition _parse_block (fuel : nat) (lines : list string) (start_idx : Z)
  : option (option Block) :=
  match find_action lines (Z.to_nat (Py.len lines - start_idx)) start_idx with
  | None => Some None
  | Some (act, path, i0) =>
      let i := i0 + 1 in
      if String.eqb act "Delete" then
        let i' := delete_loop lines (Z.to_nat (Py.len lines - i)) i in
        Some (Some (mkBlock act path [] [] i'))
      else if String.eqb act "Add" then
        let '(i', content) :=
          add_loop lines (Z.to_nat (Py.len lines - i)) i [] in
        Some (Some (mkBlock act path [] content i'))
      else
        match update_loop fuel lines i [] with
        | None => None
        | Some (i', hs) => Some (Some (mkBlock act path hs [] i'))
        end
  end.

(** The main loop of [parse_patch]. *)
Fixpoint parse_loop (fuel : nat) (lines : list string) (i : Z)
    (blocks : list Block) : option (list Block) :=
  match fuel with
  | O => None
  | S fuel' =>
      if (i <? Py.len lines)%Z then
        if String.eqb (Py.strip (Py.item lines i)) BEGIN_PATCH then
          match _parse_block fuel' lines (i + 1) with
          | None => None
          | Some (Some block) =>
              parse_loop fuel' lines (end_index block + 1) (blocks ++ [block])
          | Some None => parse_loop fuel' lines (i + 1 + 1) blocks
          end
        else parse_loop fuel' lines (i + 1) blocks
      else Some blocks
  end.

Definition parse_patch (fuel : nat) (patch_text : string)
  : option (list Block) :=
  if negb (Py.nonempty (Py.strip patch_text)) then Some []
  else parse_loop fuel (Py.split_nl patch_text) 0 [].

(** [apply_patch]: [None] only when the parser does not finish within
    [fuel]. *)
Definition apply_patch (fuel : nat) (patch_text base_dir : string) (fs : FS)
  : option (list (string * bool * string) * FS) :=
  match parse_patch fuel patch_text with
  | None => None
  | Some blocks => Some (apply_blocks base_dir fs blocks)
  end.

(** * Vocabulary of the properties *)

Local Open Scope list_scope.

(** [k] is the index of the first line whose trimmed text is the trimmed
    header. *)
Definition first_header_line (lines : list string) (hdr : string) (k : nat)
  : Prop :=
  (∃ line, lines !! k = Some line ∧ Py.strip line = Py.strip hdr) ∧
  ∀ j line, lines !! j = Some line → (j < k)%nat →
            Py.strip line ≠ Py.strip hdr.

(** The trimmed header equals no line. *)
Definition no_header_line (lines : list string) (hdr : string) : Prop :=
  ∀ line, line ∈ lines → Py.strip line ≠ Py.strip hdr.

(** The file and the hunk of the specification's example. *)
Definition example_file : list string := ["a"; "b"; "c"; "old"; "d"; "e"; "f"].

Definition example_hunk : Hunk :=
  mkHunk "a"
    [(" "%char, "a"); (" "%char, "b"); (" "%char, "c"); ("-"%char, "old");
     ("+"%char, "new"); (" "%char, "d"); (" "%char, "e"); (" "%char, "f")] 0.

(** The lines of the file from index [i] on, as many as [ctx] has, equal
    [ctx] line by line after trimming. *)
Definition run_at (lines ctx : list string) (i : nat) : Prop :=
  Py.strip <$> take (length ctx) (drop i lines) = Py.strip <$> ctx.

(** [i] is the lowest index of such a run. *)
Definition first_run (lines ctx : list string) (i : nat) : Prop :=
  run_at lines ctx i ∧ ∀ k, (k < i)%nat → ¬ run_at lines ctx k.




Definition tagged (tag : ascii) (texts : list string)
  : list (ascii * string) :=
  (λ text, (tag, text)) <$> texts.

(** The state after [open(path, 'w').write(text)] succeeded. *)
Definition written (fs : FS) (path text : string) : FS :=
  mkFS (<[path := text]> (files fs)) (dirs fs) (oplog fs ++ [OpWrite path text]).

(** Neither search finds a place for the hunk: the trimmed header equals no
    line, and the sequence the context search looks for is empty or has no
    run in the file. *)
Definition fails_to_anchor (lines : list string) (hunk : Hunk) : Prop :=
  no_header_line lines (header hunk)
  ∧ (context_lines (hunk_lines hunk) = []
     ∨ ∀ i, ¬ run_at lines (context_lines (hunk_lines hunk)) i).

(** The loop over [hs] reaches a hunk that fails to anchor in the lines as
    the hunks before it left them. *)
Definition some_hunk_fails (hs : list Hunk) (lines : list string) : Prop :=
  ∃ done hunk rest cur,
    hs = done ++ hunk :: rest
    ∧ apply_hunks done lines = Some cur
    ∧ fails_to_anchor cur hunk.

(** A file system with the single file [notes.txt] = [alpha\nbeta]. *)
Definition one_file : FS :=
  mkFS {[ "notes.txt" := Py.join_nl ["alpha"; "beta"] ]} ∅ [].

(** Two hunks in one block as the specification words it: the file holds
    the lines that each hunk expects, in two regions apart; each header
    equals a line of the file; the update puts the new lines of each hunk in
    the place of its region. *)
Definition two_hunks_as_specified (A B C : list string) (h1 h2 : Hunk)
  : Prop :=
  let p1 := hunk_parts (hunk_lines h1) in
  let p2 := hunk_parts (hunk_lines h2) in
  let file := A ++ expected_lines p1 ++ B ++ expected_lines p2 ++ C in
  (∃ k, first_header_line file (header h1) k) →
  (∃ k, first_header_line file (header h2) k) →
  apply_hunks (reverse [h1; h2]) file
  = Some (A ++ (context_before p1 ++ additions p1 ++ context_after p1) ++ B
            ++ (context_before p2 ++ additions p2 ++ context_after p2) ++ C).

(** Two hunks whose header is the first of their two leading context
    lines. *)
Definition func1_hunk : Hunk :=
  mkHunk "def func1():"
    [(" "%char, "def func1():"); (" "%char, "    line1");
     ("-"%char, "    old1"); ("+"%char, "    new1");
     (" "%char, "    line2")] 0.

Definition func2_hunk : Hunk :=
  mkHunk "def func2():"
    [(" "%char, "def func2():"); (" "%char, "    lineA");
     ("-"%char, "    old2"); ("+"%char, "    new2");
     (" "%char, "    lineB")] 0.

Definition two_region_file : list string :=
  ["# top"; "def f():"; "  x = 1"; "  old1"; "  y"; "";
   "def g():"; "  old2"; "  z"; "# end"].

Definition first_region_hunk : Hunk :=
  mkHunk "x = 1"
    [(" "%char, "def f():"); (" "%char, "  x = 1"); ("-"%char, "  old1");
     ("+"%char, "  new1"); (" "%char, "  y")] 0.

Definition second_region_hunk : Hunk :=
  mkHunk "def g():"
    [(" "%char, "def g():"); ("-"%char, "  old2"); ("+"%char, "  new2");
     (" "%char, "  z")] 0.

Definition module_fs : FS :=
  mkFS {[ "m.py" := Py.join_nl two_region_file ]} ∅ [].

Definition empty_fs : FS := mkFS ∅ ∅ [].

(** No carriage return inside. *)
Fixpoint no_carriage_return (s : string) : bool :=
  match s with
  | EmptyString => true
  | String c s' =>
      negb (Ascii.eqb c Os.carriage_return) && no_carriage_return s'
  end.

(** The text [alpha\r\nbeta], and a file system whose single file holds
    it. *)
Definition crlf_text : string :=
  "alpha" +:+ String Os.carriage_return (String Py.newline "beta").

Definition crlf_file : FS := mkFS {[ "notes.txt" := crlf_text ]} ∅ [].

(** An Update without hunks as the specification words it: it returns
    [True] and the file holds what it held. *)
Definition empty_update_as_specified (fs : FS) (path : string) : Prop :=
  ∃ fs', _apply_update fs path [] = (true, fs')
         ∧ files fs' !! path = files fs !! path.








(** The action is one of the three keywords, hunks come only with Update
    and content lines only with Add. *)
Definition block_shape (b : Block) : Prop :=
  (action b = "Update" ∨ action b = "Add" ∨ action b = "Delete")
  ∧ (hunks b ≠ [] → action b = "Update")
  ∧ (content b ≠ [] → action b = "Add").

Definition sample_patch : string :=
  Py.join_nl
    ["*** Begin Patch"; "*** Update File: file1.py"; "@@ def func1():";
     " line1"; "-old"; "+new"; " line2"; "*** End Patch"; "";
     "*** Begin Patch"; "*** Add File: file2.py"; "+new content";
     "*** End Patch"; "";
     "*** Begin Patch"; "*** Delete File: file3.py"; "*** End Patch"].

Definition sample_blocks : list Block :=
  [mkBlock "Update" "file1.py"
     [mkHunk "def func1():"
        [(" "%char, "line1"); ("-"%char, "old"); ("+"%char, "new");
         (" "%char, "line2")] 6] [] 7;
   mkBlock "Add" "file2.py" [] ["new content"] 12;
   mkBlock "Delete" "file3.py" [] [] 16].

(** No line that starts with [@@] is followed at once by another one. *)
Definition no_stacked_headers (lines : list string) : Prop :=
  ∀ i : Z, 0 <= i → i + 1 < Py.len lines →
    Py.startswith (Py.item lines i) "@@" = true →
    Py.startswith (Py.item lines (i + 1)) "@@" = false.

Definition stacked_lines : list string :=
  ["*** Begin Patch"; "*** Update File: x"; "@@ a"; "@@ b"; "*** End Patch"].

Definition stacked_patch : string := Py.join_nl stacked_lines.

Definition empty_hunk : Hunk := mkHunk "a" [] 1.

(** ** Vocabulary of the further properties *)

(** The path a block is applied to. *)
Definition target (base_dir : string) (block : Block) : string :=
  Path.join base_dir (file_path block).

(** The message that goes with the flag, for one of the three actions. *)
Definition message_fits (r : string * bool * string) : Prop :=
  let '(_, success, message) := r in
  message
  = (if success then "Updated successfully" else "Failed to apply update")
  ∨ message = (if success then "Added successfully" else "Failed to add file")
  ∨ message
    = (if success then "Deleted successfully" else "Failed to delete file").

(** A file system with a file and a directory. *)
Definition project_fs : FS :=
  mkFS {[ "src/a.txt" := "one"; "b.txt" := "two" ]} {[ "src" ]} [].

(** Only white space, or nothing at all. *)
Fixpoint blank (s : string) : bool :=
  match s with
  | EmptyString => true
  | String c s' => Py.isspace c && blank s'
  end.

(** The trimmed line starts with one of the three action headers. *)
Definition is_action_line (line : string) : bool :=
  Py.startswith (Py.strip line) UPDATE_FILE
  || Py.startswith (Py.strip line) ADD_FILE
  || Py.startswith (Py.strip line) DELETE_FILE.

(** A patch body without the opening marker. *)
Definition unwrapped_patch : string :=
  Py.join_nl
    ["*** Update File: test.txt"; "@@ line1"; " line1"; "-old"; "+new";
     "*** End Patch"].

(** A segment with a header that names no action. *)
Definition invalid_action_lines : list string :=
  ["*** Begin Patch"; "*** Invalid File: test.txt"; "*** End Patch"].

(** One of the three prefixes of a tagged line. *)
Definition valid_tag (tag : ascii) : Prop :=
  tag = " "%char ∨ tag = "-"%char ∨ tag = "+"%char.

(** A line that ends the lines of a hunk: an end marker, a hunk header, or a
    line without one of the three prefixes. *)
Definition stops_hunk (line : string) : bool :=
  String.eqb (Py.strip line) END_PATCH
  || Py.startswith line "@@"
  || negb (Py.startswith line " " || Py.startswith line "-"
           || Py.startswith line "+").

(** A hunk between two other lines of a patch. *)
Definition hunk_in_patch : list string :=
  ["*** Update File: f"; "@@ def f():"; " def f():"; "-    old"; "+    new";
   "     tail"; ""; "*** End Patch"].

(** Where a block may end: on an end marker, or at the end of the input
    when the marker is missing. *)
Definition ends_block (lines : list string) (e : Z) : Prop :=
  0 < e <= Py.len lines ∧ (e = Py.len lines ∨ is_end lines e = true).

(** A patch whose last block has no end marker. *)
Definition unterminated_patch : string :=
  Py.join_nl
    ["*** Begin Patch"; "*** Delete File: a"; "*** End Patch";
     "*** Begin Patch"; "*** Update File: test.txt"; "@@ line1"; " line1";
     "-old"; "+new"].

(** The lines before the first end marker. *)
Fixpoint until_end (ls : list string) : list string :=
  match ls with
  | [] => []
  | l :: rest =>
      if String.eqb (Py.strip l) END_PATCH then [] else l :: until_end rest
  end.

(** What an Add block keeps of its body: the lines that start with [+],
    without the [+]. *)
Definition added_content (body : list string) : list string :=
  Py.slice_from 1 <$> List.filter (λ l, Py.startswith l "+") body.

(** No white space at either end. *)
Definition trimmed (s : string) : Prop := Py.strip s = s.

Definition add_patch_lines : list string :=
  ["*** Begin Patch"; "*** Add File:  docs/new.txt "; "+ first";
   "+*** End Patch"; "+"; "*** End Patch"; "+after"].

(** No line feed inside. *)
Fixpoint no_newline (s : string) : bool :=
  match s with
  | EmptyString => true
  | String c s' => negb (Ascii.eqb c Py.newline) && no_newline s'
  end.

(** A hunk that starts with its removal, under the removed line as
    header. *)
Definition replace_hunk : Hunk :=
  mkHunk "original content"
    [("-"%char, "original content"); ("+"%char, "updated content")] 0.

(** * Properties *)

(** ** Splitting and joining lines *)

Lemma split_nl_nonempty (s : string) : Py.split_nl s <> [].
Proof.
  destruct s as [|c s]; simpl; [discriminate|].
  destruct (Ascii.eqb c Py.newline); [discriminate|].
  destruct (Py.split_nl s); discriminate.
Qed.

Lemma join_split_nl (s : string) : Py.join_nl (Py.split_nl s) = s.
Proof.
  induction s as [|c s IH]; [reflexivity|].
  pose proof (split_nl_nonempty s) as Hne.
  simpl. destruct (Ascii.eqb c Py.newline) eqn:Hc.
  - apply Ascii.eqb_eq in Hc. subst c.
    destruct (Py.split_nl s) as [|w ws]; [congruence|].
    change (Py.join_nl ("" :: w :: ws))
      with ("" +:+ String Py.newline (Py.join_nl (w :: ws))).
    now rewrite <- IH.
  - destruct (Py.split_nl s) as [|w ws]; [congruence|].
    destruct ws as [|w' ws].
    + simpl in *. now rewrite IH.
    + change (Py.join_nl (String c w :: w' :: ws))
        with (String c w +:+ String Py.newline (Py.join_nl (w' :: ws))).
      change (Py.join_nl (w :: w' :: ws))
        with (w +:+ String Py.newline (Py.join_nl (w' :: ws))) in IH.
      now rewrite <- IH.
Qed.

(** ** Anchoring by the header line *)

Lemma trim_eqb_true (a b : string) :
  trim_eqb a b = true ↔ Py.strip a = Py.strip b.
Proof. unfold trim_eqb. apply String.eqb_eq. Qed.

Lemma trim_eqb_false (a b : string) :
  trim_eqb a b = false ↔ Py.strip a ≠ Py.strip b.
Proof. unfold trim_eqb. apply String.eqb_neq. Qed.

Lemma header_match_first (lines : list string) (hdr : string) (k : nat) :
  first_header_line lines hdr k →
  ∀ i, header_match lines hdr i = i + Z.of_nat k.
Proof.
  revert k. induction lines as [|l rest IH]; intros k [(line & Hk & Heq) Hlt] i.
  - destruct k; discriminate.
  - destruct k as [|k]; simpl in *.
    + injection Hk as ->. apply trim_eqb_true in Heq. rewrite Heq. lia.
    + assert (trim_eqb l hdr = false) as ->.
      { apply trim_eqb_false, (Hlt 0%nat); [reflexivity | lia]. }
      rewrite (IH k); [lia|]. split; [eauto|].
      intros j y Hj Hjk. apply (Hlt (S j)); [exact Hj | lia].
Qed.

Lemma header_match_none (lines : list string) (hdr : string) :
  no_header_line lines hdr → ∀ i, header_match lines hdr i = -1.
Proof.
  induction lines as [|l rest IH]; intros Hno i; [reflexivity|].
  simpl. assert (trim_eqb l hdr = false) as ->.
  { apply trim_eqb_false, Hno. left. }
  apply IH. intros y Hy. apply Hno. now right.
Qed.

Lemma header_match_range (lines : list string) (hdr : string) (i : Z) :
  header_match lines hdr i = -1 ∨ i <= header_match lines hdr i.
Proof.
  revert i. induction lines as [|l rest IH]; intros i; simpl; [now left|].
  destruct (trim_eqb l hdr); [right; lia|].
  destruct (IH (i + 1)); [now left | right; lia].
Qed.

Lemma header_match_miss (lines : list string) (hdr : string) (i : Z) :
  0 <= i → header_match lines hdr i = -1 → no_header_line lines hdr.
Proof.
  revert i. induction lines as [|l rest IH]; intros i Hi Hm y Hy.
  - inversion Hy.
  - simpl in Hm. destruct (trim_eqb l hdr) eqn:Hl; [lia|].
    apply elem_of_cons in Hy as [->|Hy]; [now apply trim_eqb_false|].
    apply (IH (i + 1)); [lia | exact Hm | exact Hy].
Qed.

Lemma start_of_max (m : Z) (p : Parts) :
  start_of m p = Z.max 0 (m - Py.len (context_before p) + 1).
Proof.
  unfold start_of.
  destruct (Z.ltb_spec (m - Py.len (context_before p) + 1) 0); lia.
Qed.

Lemma locate_header (lines : list string) (hunk : Hunk) (k : nat) :
  first_header_line lines (header hunk) k → locate lines hunk = Z.of_nat k.
Proof.
  intros Hk. unfold locate. rewrite (header_match_first _ _ _ Hk).
  destruct (Z.eqb_spec (0 + Z.of_nat k) (-1)); lia.
Qed.

Lemma apply_hunk_located (lines : list string) (hunk : Hunk) (m : Z) :
  locate lines hunk = m → m ≠ -1 →
  _apply_hunk_to_lines lines hunk
  = Some (build_new_lines lines (start_of m (hunk_parts (hunk_lines hunk)))
            (hunk_parts (hunk_lines hunk))).
Proof.
  intros Hm Hne. unfold _apply_hunk_to_lines. rewrite Hm.
  destruct (Z.eqb_spec m (-1)); [contradiction | reflexivity].
Qed.

Lemma apply_hunk_by_header (lines : list string) (hunk : Hunk) (k : nat) :
  first_header_line lines (header hunk) k →
  _apply_hunk_to_lines lines hunk
  = Some (build_new_lines lines
            (Z.max 0 (Z.of_nat k
                      - Py.len (context_before (hunk_parts (hunk_lines hunk)))
                      + 1))
            (hunk_parts (hunk_lines hunk))).
Proof.
  intros Hk. rewrite (apply_hunk_located _ _ (Z.of_nat k)).
  - now rewrite start_of_max.
  - now apply locate_header.
  - lia.
Qed.

(** C4.  When the trimmed header equals a line of the file and [k] is the
    index of the first such line, the match index is [k], the start index is
    [k - len(context_before) + 1] clamped at zero, and the hunk is merged
    there.  On the file [a b c old d e f] with the header [a], context
    [a b c], removal [old], addition [new] and trailing context [d e f] the
    start index is [0] and the result is [a b c new d e f]. *)
Theorem exact_header_start_index :
  (∀ (lines : list string) (hunk : Hunk) (k : nat),
     first_header_line lines (header hunk) k →
     let p := hunk_parts (hunk_lines hunk) in
     locate lines hunk = Z.of_nat k
     ∧ start_of (locate lines hunk) p
       = Z.max 0 (Z.of_nat k - Py.len (context_before p) + 1)
     ∧ _apply_hunk_to_lines lines hunk
       = Some (build_new_lines lines
                 (Z.max 0 (Z.of_nat k - Py.len (context_before p) + 1)) p))
  ∧ hunk_parts (hunk_lines example_hunk)
    = mkParts ["a"; "b"; "c"] ["d"; "e"; "f"] ["old"] ["new"] true
  ∧ start_of (locate example_file example_hunk)
      (hunk_parts (hunk_lines example_hunk)) = 0
  ∧ _apply_hunk_to_lines example_file example_hunk
    = Some ["a"; "b"; "c"; "new"; "d"; "e"; "f"]
  ∧ (_apply_update (mkFS {[ "f.txt" := Py.join_nl example_file ]} ∅ [])
       "f.txt" [example_hunk]).1 = true
  ∧ Py.split_nl <$>
      files (_apply_update (mkFS {[ "f.txt" := Py.join_nl example_file ]} ∅ [])
               "f.txt" [example_hunk]).2 !! "f.txt"
    = Some ["a"; "b"; "c"; "new"; "d"; "e"; "f"].
Proof.
  split; [|repeat split; reflexivity].
  intros lines hunk k Hk p. split; [|split].
  - now apply locate_header.
  - rewrite (locate_header _ _ _ Hk). apply start_of_max.
  - now apply apply_hunk_by_header.
Qed.

Lemma exact_header_start_index_witness :
  first_header_line ["x"; "  a "; "b"; "a"] "a" 1
  ∧ _apply_hunk_to_lines ["x"; "  a "; "b"; "a"]
      (mkHunk "a" [(" "%char, "a"); ("-"%char, "b"); ("+"%char, "B")] 0)
    = Some ["x"; "a"; "B"; "a"].
Proof.
  assert (first_header_line ["x"; "  a "; "b"; "a"] "a" 1) as Hk.
  { split; [exists "  a "; split; reflexivity|].
    intros [|j] line Hj Hlt; [|lia]. injection Hj as <-. discriminate. }
  split; [exact Hk|].
  exact (proj2 (proj2 (proj1 exact_header_start_index _
     (mkHunk "a" [(" "%char, "a"); ("-"%char, "b"); ("+"%char, "B")] 0) _ Hk))).
Defined.

Lemma build_new_lines_region (pre region post : list string) (p : Parts) :
  Py.len region = region_len p →
  build_new_lines (pre ++ region ++ post) (Py.len pre) p
  = pre ++ context_before p ++ additions p ++ context_after p ++ post.
Proof.
  intros Hlen. unfold build_new_lines, Py.upto, Py.from. rewrite <- Hlen.
  unfold Py.len. rewrite <- Nat2Z.inj_add, !Nat2Z.id.
  rewrite take_app_length. do 4 f_equal.
  rewrite app_assoc, <- length_app. apply drop_app_length.
Qed.

Lemma apply_hunk_header_region
    (pre region post : list string) (hunk : Hunk) (k : nat) :
  let p := hunk_parts (hunk_lines hunk) in
  first_header_line (pre ++ region ++ post) (header hunk) k →
  Z.max 0 (Z.of_nat k - Py.len (context_before p) + 1) = Py.len pre →
  Py.len region = region_len p →
  _apply_hunk_to_lines (pre ++ region ++ post) hunk
  = Some (pre ++ context_before p ++ additions p ++ context_after p ++ post).
Proof.
  intros p Hk Hstart Hlen.
  rewrite (apply_hunk_by_header _ _ _ Hk). fold p.
  rewrite Hstart. now rewrite build_new_lines_region.
Qed.

(** C5.  A hunk anchored by its header line is merged whatever the file
    holds in the region.  With [k] the index of the first line equal to the
    header, the application succeeds and returns the lines before the start
    index, then [context_before + added + context_after], then the lines
    from the end of the region on; the lines of the region are not looked
    at: for any [region] of the region's length at the start index, equal to
    [context_before + removed + context_after] or not, it is replaced. *)
Theorem exact_header_replaces_unverified
    (lines : list string) (hunk : Hunk) (k : nat) :
  let p := hunk_parts (hunk_lines hunk) in
  let start := Z.max 0 (Z.of_nat k - Py.len (context_before p) + 1) in
  first_header_line lines (header hunk) k →
  _apply_hunk_to_lines lines hunk
  = Some (Py.upto lines start ++ context_before p ++ additions p
            ++ context_after p ++ Py.from lines (start + region_len p))
  ∧ ∀ pre region post : list string,
      lines = pre ++ region ++ post →
      Py.len pre = start →
      Py.len region = region_len p →
      _apply_hunk_to_lines lines hunk
      = Some (pre ++ context_before p ++ additions p ++ context_after p
                ++ post).
Proof.
  intros p start Hk. split; [exact (apply_hunk_by_header lines hunk k Hk)|].
  intros pre region post -> Hpre Hlen.
  apply (apply_hunk_header_region pre region post hunk k Hk);
    [fold p; fold start; now rewrite Hpre | exact Hlen].
Qed.

Lemma exact_header_replaces_unverified_witness :
  let hunk := mkHunk "fn"
                [(" "%char, "fn"); ("-"%char, "old"); ("+"%char, "new");
                 (" "%char, "end")] 0 in
  let p := hunk_parts (hunk_lines hunk) in
  first_header_line ["top"; "fn"; "DIFFERENT"; "OTHER"; "tail"] "fn" 1
  ∧ actual_lines ["top"; "fn"; "DIFFERENT"; "OTHER"; "tail"] 1 p
    ≠ expected_lines p
  ∧ _apply_hunk_to_lines ["top"; "fn"; "DIFFERENT"; "OTHER"; "tail"] hunk
    = Some ["top"; "fn"; "new"; "end"; "tail"].
Proof.
  intros hunk p.
  assert (first_header_line ["top"; "fn"; "DIFFERENT"; "OTHER"; "tail"]
            "fn" 1) as Hk.
  { split; [exists "fn"; split; reflexivity|].
    intros [|j] line Hj Hlt; [|lia]. injection Hj as <-. discriminate. }
  split; [exact Hk|]. split; [discriminate|].
  exact (proj2 (exact_header_replaces_unverified
                  ["top"; "fn"; "DIFFERENT"; "OTHER"; "tail"] hunk 1%nat Hk)
           ["top"] ["fn"; "DIFFERENT"; "OTHER"] ["tail"]
           eq_refl eq_refl eq_refl).
Defined.

(** ** Anchoring by the context search *)

Lemma run_at_fits (lines ctx : list string) (i : nat) :
  run_at lines ctx i → (i + length ctx <= length lines)%nat ∨ ctx = [].
Proof.
  intros H. apply (f_equal length) in H.
  rewrite !length_fmap, length_take, length_drop in H.
  destruct ctx as [|c ctx]; [now right | left].
  rewrite length_cons in *. lia.
Qed.

Lemma run_matches_spec (lines ctx : list string) (i j : nat) :
  (i + j + length ctx <= length lines)%nat →
  run_matches lines (Z.of_nat i) ctx (Z.of_nat j) = true
  ↔ Py.strip <$> take (length ctx) (drop (i + j) lines) = Py.strip <$> ctx.
Proof.
  revert j. induction ctx as [|c rest IH]; intros j Hfit; simpl.
  - easy.
  - simpl in Hfit.
    destruct (lookup_lt_is_Some_2 lines (i + j)) as [x Hx]; [lia|].
    unfold Py.item. rewrite <- Nat2Z.inj_add, Nat2Z.id.
    rewrite nth_lookup, Hx. simpl.
    rewrite (drop_S _ _ _ Hx). simpl.
    replace (Z.of_nat j + 1) with (Z.of_nat (S j)) by lia.
    destruct (trim_eqb x c) eqn:Hxc; simpl.
    + apply trim_eqb_true in Hxc. rewrite (IH (S j)) by lia.
      replace (i + S j)%nat with (S (i + j)) by lia.
      split; [intros H; rewrite Hxc; f_equal; exact H
             | intros H; injection H as _ H'; exact H'].
    + apply trim_eqb_false in Hxc.
      split; [discriminate | intros H; injection H; intros; contradiction].
Qed.

Lemma run_matches_run_at (lines ctx : list string) (i : nat) :
  (i + length ctx <= length lines)%nat →
  run_matches lines (Z.of_nat i) ctx 0 = true ↔ run_at lines ctx i.
Proof.
  intros Hfit. unfold run_at.
  rewrite (run_matches_spec lines ctx i 0) by lia.
  now rewrite Nat.add_0_r.
Qed.


Lemma scan_positions_none (lines ctx : list string) (n i0 : nat) :
  (∀ k, (i0 <= k < i0 + n)%nat →
        run_matches lines (Z.of_nat k) ctx 0 = false) →
  scan_positions lines ctx n (Z.of_nat i0) = -1.
Proof.
  revert i0. induction n as [|n IH]; intros i0 Hall; [reflexivity|].
  simpl. rewrite (Hall i0) by lia.
  replace (Z.of_nat i0 + 1) with (Z.of_nat (S i0)) by lia.
  apply IH. intros k Hk. apply Hall. lia.
Qed.


Lemma scan_positions_miss (lines ctx : list string) (n i0 : nat) :
  scan_positions lines ctx n (Z.of_nat i0) = -1 →
  ∀ k, (i0 <= k < i0 + n)%nat →
       run_matches lines (Z.of_nat k) ctx 0 = false.
Proof.
  revert i0. induction n as [|n IH]; intros i0 Hscan k Hk; [lia|].
  simpl in Hscan.
  destruct (run_matches lines (Z.of_nat i0) ctx 0) eqn:Hm; [lia|].
  destruct (decide (k = i0)) as [->|Hne]; [exact Hm|].
  replace (Z.of_nat i0 + 1) with (Z.of_nat (S i0)) in Hscan by lia.
  apply (IH (S i0) Hscan). lia.
Qed.

(** The context search returns [-1] exactly when it has nothing to look for
    or the file has no run of what it looks for. *)
Lemma find_hunk_location_none (lines : list string)
    (hl : list (ascii * string)) :
  _find_hunk_location lines hl = -1
  ↔ context_lines hl = [] ∨ ∀ i, ¬ run_at lines (context_lines hl) i.
Proof.
  unfold _find_hunk_location.
  destruct (context_lines hl) as [|c ctx] eqn:Hctx; [now split; auto|].
  replace 0 with (Z.of_nat 0) by reflexivity. split.
  - intros Hscan. right. intros i Hrun.
    destruct (run_at_fits _ _ _ Hrun) as [Hfit|]; [|discriminate].
    pose proof (scan_positions_miss _ _ _ _ Hscan i) as Hmiss.
    rewrite (proj2 (run_matches_run_at _ _ _ Hfit) Hrun) in Hmiss.
    unfold Py.len in Hmiss. discriminate Hmiss. lia.
  - intros [|Hnone]; [discriminate|].
    apply scan_positions_none. intros k Hk. apply not_true_is_false.
    intros Hm. apply run_matches_run_at in Hm; [now apply (Hnone k)|].
    unfold Py.len in Hk. lia.
Qed.

Lemma find_hunk_location_empty (lines : list string)
    (hl : list (ascii * string)) :
  context_lines hl = [] → _find_hunk_location lines hl = -1.
Proof. intros H. unfold _find_hunk_location. now rewrite H. Qed.

Lemma no_header_line_check (lines : list string) (hdr : string) :
  forallb (λ line, negb (trim_eqb line hdr)) lines = true →
  no_header_line lines hdr.
Proof.
  intros H line Hin. rewrite forallb_forall in H.
  apply trim_eqb_false, negb_true_iff, H. now apply list_elem_of_In.
Qed.





(** *** The partition of a hunk of the usual shape *)

Lemma fold_context_before (cb : list string) (p : Parts) :
  in_changes p = false →
  fold_left parts_step (tagged " " cb) p
  = mkParts (context_before p ++ cb) (context_after p) (removals p)
            (additions p) false.
Proof.
  revert p. induction cb as [|c cb IH]; intros [b a r d f] Hf;
    simpl in *; subst f.
  - now rewrite app_nil_r.
  - rewrite IH by reflexivity. simpl. now rewrite <- app_assoc.
Qed.

Lemma fold_removals (rm : list string) (p : Parts) :
  fold_left parts_step (tagged "-" rm) p
  = mkParts (context_before p) (context_after p) (removals p ++ rm)
            (additions p)
            (match rm with [] => in_changes p | _ => true end).
Proof.
  revert p. induction rm as [|r rm IH]; intros [b a r0 d f].
  - simpl. now rewrite app_nil_r.
  - change (tagged "-" (r :: rm)) with (("-"%char, r) :: tagged "-" rm).
    cbn [fold_left]. rewrite IH. simpl. rewrite <- app_assoc.
    now destruct rm.
Qed.

Lemma fold_in_changes (hl : list (ascii * string)) (p : Parts) :
  in_changes p = true →
  Forall (λ e, e.1 ≠ "-"%char) hl →
  context_before (fold_left parts_step hl p) = context_before p
  ∧ removals (fold_left parts_step hl p) = removals p.
Proof.
  revert p. induction hl as [|[tag text] hl IH]; intros p Hp Hall;
    [now split|].
  apply Forall_cons in Hall as [Htag Hall]. simpl in Htag. cbn [fold_left].
  assert (in_changes (parts_step p (tag, text)) = true
          ∧ context_before (parts_step p (tag, text)) = context_before p
          ∧ removals (parts_step p (tag, text)) = removals p)
    as (Hc & Hb & Hr).
  { unfold parts_step. rewrite Hp.
    destruct (Ascii.eqb tag " "); [easy|].
    destruct (Ascii.eqb_spec tag "-"); [contradiction|].
    destruct (Ascii.eqb tag "+"); easy. }
  destruct (IH _ Hc Hall) as [-> ->]. now split.
Qed.

(** For a hunk made of leading context, then removed lines, then an added
    line and further lines none of which is a removal, the sequence the
    search looks for is [context_before + removed]. *)
Lemma context_lines_usual_shape
    (cb rm : list string) (t : string) (rest : list (ascii * string)) :
  Forall (λ e, e.1 ≠ "-"%char) rest →
  let hl := tagged " " cb ++ tagged "-" rm ++ ("+"%char, t) :: rest in
  context_before (hunk_parts hl) = cb
  ∧ removals (hunk_parts hl) = rm
  ∧ context_lines hl = cb ++ rm.
Proof.
  intros Hrest hl. unfold hl, hunk_parts.
  rewrite !fold_left_app, fold_context_before by reflexivity.
  rewrite fold_removals. cbn [fold_left].
  match goal with
  | |- context [fold_left parts_step rest ?p] =>
      assert (in_changes p = true) as Hin by (now destruct rm);
      destruct (fold_in_changes rest p Hin Hrest) as [Hb Hr];
      assert (context_before p = cb) as Hcb by (now destruct rm);
      assert (removals p = rm) as Hrm by (now destruct rm)
  end.
  rewrite Hcb in Hb. rewrite Hrm in Hr.
  split; [exact Hb|]. split; [exact Hr|].
  clear. induction cb as [|c cb IH]; simpl; [|now rewrite IH].
  induction rm as [|r rm IH]; simpl; [reflexivity | now rewrite IH].
Qed.

(** ** Updating a file *)

Lemma stored_is_file (fs : FS) (path raw : string) :
  Os.stored fs path = Some raw →
  Os.isdir fs path = false ∧ Os.isfile fs path = true
  ∧ files fs !! path = Some raw.
Proof.
  unfold Os.stored. destruct (Os.isfile fs path); [|discriminate].
  destruct (Os.isdir fs path); [discriminate|]. simpl. auto.
Qed.

Lemma read_stored (fs : FS) (path text : string) :
  Os.read fs path = Some text →
  ∃ raw, Os.stored fs path = Some raw ∧ text = Os.universal_newlines raw.
Proof.
  unfold Os.read. destruct (Os.stored fs path) as [raw|]; [|discriminate].
  intros H. injection H as <-. now exists raw.
Qed.

Lemma stored_read (fs : FS) (path raw : string) :
  Os.stored fs path = Some raw →
  Os.read fs path = Some (Os.universal_newlines raw).
Proof. unfold Os.read. now intros ->. Qed.

Lemma read_is_file (fs : FS) (path text : string) :
  Os.read fs path = Some text →
  Os.isdir fs path = false ∧ Os.isfile fs path = true.
Proof.
  intros (raw & Hs & _)%read_stored.
  destruct (stored_is_file _ _ _ Hs) as (Hd & Hf & _). auto.
Qed.

Lemma apply_update_existing (fs : FS) (path text : string) (hs : list Hunk) :
  Os.read fs path = Some text →
  _apply_update fs path hs
  = match apply_hunks (reverse hs) (Py.split_nl text) with
    | None => (false, fs)
    | Some lines' => (true, written fs path (Py.join_nl lines'))
    end.
Proof.
  intros Hread. destruct (read_is_file _ _ _ Hread) as (Hd & Hf).
  unfold _apply_update, Os.path_exists, Os.write.
  rewrite Hf, Hd, Hread. simpl.
  destruct (apply_hunks _ _); reflexivity.
Qed.

Lemma apply_hunk_none (lines : list string) (hunk : Hunk) :
  _apply_hunk_to_lines lines hunk = None ↔ fails_to_anchor lines hunk.
Proof.
  unfold _apply_hunk_to_lines, fails_to_anchor, locate.
  rewrite <- find_hunk_location_none.
  destruct (Z.eqb_spec (header_match lines (header hunk) 0) (-1)) as [Hh|Hh].
  - pose proof (header_match_miss _ _ 0 ltac:(lia) Hh) as Hno.
    destruct (Z.eqb_spec (_find_hunk_location lines (hunk_lines hunk)) (-1));
      split; easy.
  - destruct (Z.eqb_spec (header_match lines (header hunk) 0) (-1));
      [contradiction|]. split; [discriminate|]. intros [Hno _].
    now rewrite (header_match_none _ _ Hno) in Hh.
Qed.

Lemma apply_hunks_none (hs : list Hunk) (lines : list string) :
  apply_hunks hs lines = None ↔ some_hunk_fails hs lines.
Proof.
  revert lines. induction hs as [|h hs IH]; intros lines; simpl.
  - split; [discriminate|]. intros (done & ? & ? & ? & Heq & _).
    destruct done; discriminate.
  - destruct (_apply_hunk_to_lines lines h) as [lines'|] eqn:Hh.
    + rewrite IH. split.
      * intros (done & hunk & rest & cur & -> & Hd & Hf).
        exists (h :: done), hunk, rest, cur. simpl. now rewrite Hh.
      * intros (done & hunk & rest & cur & Heq & Hd & Hf).
        destruct done as [|h' done]; simpl in *.
        -- injection Heq as <- <-. injection Hd as <-.
           apply apply_hunk_none in Hf. congruence.
        -- injection Heq as <- ->. rewrite Hh in Hd.
           now exists done, hunk, rest, cur.
    + split; [|reflexivity]. intros _.
      exists [], h, hs, lines.
      split; [reflexivity|]. split; [reflexivity|]. now apply apply_hunk_none.
Qed.

(** C2.  For a regular file at [path]: when some hunk of the block fails to
    anchor, by its header line and by the context search, the update returns
    [False] and the file system is the one before the call, nothing written;
    when none fails the update returns [True] and has written the file once,
    with the merged lines; and a write is logged only in the second case. *)
Theorem update_all_or_nothing
    (fs : FS) (path text : string) (hs : list Hunk) :
  Os.read fs path = Some text →
  (some_hunk_fails (reverse hs) (Py.split_nl text) →
   _apply_update fs path hs = (false, fs))
  ∧ (¬ some_hunk_fails (reverse hs) (Py.split_nl text) →
     ∃ lines',
       apply_hunks (reverse hs) (Py.split_nl text) = Some lines'
       ∧ _apply_update fs path hs
         = (true, written fs path (Py.join_nl lines')))
  ∧ (oplog (_apply_update fs path hs).2 ≠ oplog fs →
     ¬ some_hunk_fails (reverse hs) (Py.split_nl text)
     ∧ ∃ new_text,
         oplog (_apply_update fs path hs).2
         = oplog fs ++ [OpWrite path new_text]).
Proof.
  intros Hread. rewrite (apply_update_existing _ _ _ _ Hread).
  destruct (apply_hunks (reverse hs) (Py.split_nl text)) as [lines'|] eqn:Hall.
  - assert (¬ some_hunk_fails (reverse hs) (Py.split_nl text)) as Hok.
    { intros Hf. apply apply_hunks_none in Hf. congruence. }
    split; [intros; contradiction|]. split; [eauto|].
    intros _. split; [exact Hok|]. simpl. eauto.
  - split; [reflexivity|]. split.
    + intros Hok. exfalso. apply Hok. now apply apply_hunks_none.
    + simpl. intros Hne. contradiction.
Qed.

Lemma update_all_or_nothing_witness :
  Os.read one_file "notes.txt" = Some (Py.join_nl ["alpha"; "beta"])
  ∧ apply_hunks
      [mkHunk "beta" [(" "%char, "beta"); ("+"%char, "BETA")] 0]
      ["alpha"; "beta"]
    = Some ["alpha"; "beta"; "BETA"]
  ∧ _apply_update one_file "notes.txt"
      [mkHunk "gamma" [("-"%char, "gamma"); ("+"%char, "GAMMA")] 0;
       mkHunk "beta" [(" "%char, "beta"); ("+"%char, "BETA")] 0]
    = (false, one_file).
Proof.
  split; [reflexivity|]. split; [reflexivity|].
  apply (update_all_or_nothing one_file "notes.txt"
           (Py.join_nl ["alpha"; "beta"]) _ eq_refl).
  exists [mkHunk "beta" [(" "%char, "beta"); ("+"%char, "BETA")] 0],
    (mkHunk "gamma" [("-"%char, "gamma"); ("+"%char, "GAMMA")] 0),
    [], ["alpha"; "beta"; "BETA"].
  split; [reflexivity|]. split; [reflexivity|].
  now apply apply_hunk_none.
Defined.

Lemma universal_newlines_id (s : string) :
  no_carriage_return s = true → Os.universal_newlines s = s.
Proof.
  induction s as [|c s IH]; [reflexivity|]. cbn [no_carriage_return].
  intros [Hc Hs]%andb_true_iff. apply negb_true_iff in Hc.
  cbn [Os.universal_newlines]. rewrite Hc. now rewrite (IH Hs).
Qed.

Lemma written_stored (fs : FS) (path text text' : string) :
  Os.stored fs path = Some text →
  Os.stored (written fs path text') path = Some text'.
Proof.
  intros (Hd & Hf & _)%stored_is_file. unfold Os.stored.
  change (Os.isdir (written fs path text') path) with (Os.isdir fs path).
  rewrite Hd. unfold Os.isfile in *.
  apply andb_true_iff in Hf as [-> _]. simpl.
  rewrite lookup_insert_eq.
  rewrite bool_decide_eq_true_2 by eauto. reflexivity.
Qed.

(** C9, as stated, fails.  The file [alpha\r\nbeta] is read in text mode as
    [alpha\nbeta]; the Update without hunks returns [True] and writes that
    text, and the file no longer holds what it held. *)
Lemma empty_update_as_specified_fails :
  ¬ empty_update_as_specified crlf_file "notes.txt".
Proof.
  intros (fs' & Hrun & Hsame). vm_compute in Hrun.
  injection Hrun as <-. vm_compute in Hsame. discriminate Hsame.
Qed.

(** C9.  For a regular file at [path], an Update block without hunks
    returns [True] after one write of the text that the read handed over:
    splitting a text at the line feeds and joining it again gives the text
    back.  That text is the text on disk with every carriage return, alone
    or before a line feed, turned into a line feed.  So for a file without
    carriage returns the write puts the same text into the file and the
    files are what they were. *)
Theorem empty_update_keeps_content (fs : FS) (path text : string) :
  Os.stored fs path = Some text →
  (∀ s, Py.join_nl (Py.split_nl s) = s)
  ∧ _apply_update fs path []
    = (true, written fs path (Os.universal_newlines text))
  ∧ (no_carriage_return text = true →
     Os.read fs path = Some text
     ∧ _apply_update fs path [] = (true, written fs path text)
     ∧ files (written fs path text) = files fs
     ∧ Os.stored (written fs path text) path = Some text
     ∧ oplog (written fs path text) = oplog fs ++ [OpWrite path text]).
Proof.
  intros Hs. pose proof (stored_read _ _ _ Hs) as Hread.
  destruct (stored_is_file _ _ _ Hs) as (Hd & Hf & Hl).
  assert (_apply_update fs path []
          = (true, written fs path (Os.universal_newlines text))) as Hrun.
  { rewrite (apply_update_existing _ _ _ _ Hread). simpl.
    now rewrite join_split_nl. }
  split; [exact join_split_nl|]. split; [exact Hrun|].
  intros Hcr. rewrite (universal_newlines_id _ Hcr) in *.
  split; [exact Hread|]. split; [exact Hrun|]. split; [|split].
  - simpl. now apply insert_id.
  - now apply (written_stored fs path text).
  - reflexivity.
Qed.

Lemma empty_update_keeps_content_witness :
  Os.stored one_file "notes.txt" = Some (Py.join_nl ["alpha"; "beta"])
  ∧ no_carriage_return (Py.join_nl ["alpha"; "beta"]) = true
  ∧ _apply_update one_file "notes.txt" []
    = (true, written one_file "notes.txt" (Py.join_nl ["alpha"; "beta"]))
  ∧ files (written one_file "notes.txt" (Py.join_nl ["alpha"; "beta"]))
    = files one_file.
Proof.
  pose proof (empty_update_keeps_content one_file "notes.txt"
                (Py.join_nl ["alpha"; "beta"]) eq_refl) as (_ & _ & H).
  destruct (H eq_refl) as (_ & H1 & H2 & _).
  split; [reflexivity|]. split; [reflexivity|].
  split; [exact H1 | exact H2].
Defined.

Lemma apply_hunks_app (hs1 hs2 : list Hunk) (lines : list string) :
  apply_hunks (hs1 ++ hs2) lines
  = match apply_hunks hs1 lines with
    | None => None
    | Some lines' => apply_hunks hs2 lines'
    end.
Proof.
  revert lines. induction hs1 as [|h hs1 IH]; intros lines; simpl;
    [reflexivity|].
  destruct (_apply_hunk_to_lines lines h); [apply IH | reflexivity].
Qed.

(** C10.  For a hunk whose first tagged line is an added line and whose
    trimmed header equals no line of the file, the context search has
    nothing to look for and returns [-1], and the hunk is not applied.  An
    Update of a regular file that comes to this hunk with such lines, the
    lines read or the lines as the later hunks of the block left them,
    returns [False] and leaves the file system as it was. *)
Theorem added_first_hunk_fails
    (lines : list string) (hunk : Hunk) (t : string)
    (rest : list (ascii * string)) :
  hunk_lines hunk = ("+"%char, t) :: rest →
  no_header_line lines (header hunk) →
  context_lines (hunk_lines hunk) = []
  ∧ _find_hunk_location lines (hunk_lines hunk) = -1
  ∧ _apply_hunk_to_lines lines hunk = None
  ∧ ∀ (fs : FS) (path text : string) (before after : list Hunk),
      Os.read fs path = Some text →
      apply_hunks (reverse after) (Py.split_nl text) = Some lines →
      _apply_update fs path (before ++ hunk :: after) = (false, fs).
Proof.
  intros Hl Hno.
  assert (context_lines (hunk_lines hunk) = []) as Hctx by now rewrite Hl.
  assert (_apply_hunk_to_lines lines hunk = None) as Hnone.
  { apply apply_hunk_none. split; [exact Hno | now left]. }
  split; [exact Hctx|]. split; [now apply find_hunk_location_empty|].
  split; [exact Hnone|]. intros fs path text before after Hread Hafter.
  rewrite (apply_update_existing _ _ _ _ Hread).
  rewrite reverse_app, reverse_cons, <- app_assoc, apply_hunks_app, Hafter.
  simpl. now rewrite Hnone.
Qed.

Lemma added_first_hunk_fails_witness :
  no_header_line (Py.split_nl (Py.join_nl ["alpha"; "beta"])) "gamma"
  ∧ _apply_update one_file "notes.txt"
      [mkHunk "alpha" [("-"%char, "alpha"); ("+"%char, "ALPHA")] 0;
       mkHunk "gamma" [("+"%char, "delta"); (" "%char, "alpha")] 0]
    = (false, one_file).
Proof.
  assert (no_header_line (Py.split_nl (Py.join_nl ["alpha"; "beta"])) "gamma")
    as Hno by (now apply no_header_line_check).
  split; [exact Hno|].
  exact (proj2 (proj2 (proj2
    (added_first_hunk_fails _
       (mkHunk "gamma" [("+"%char, "delta"); (" "%char, "alpha")] 0)
       "delta" [(" "%char, "alpha")] eq_refl Hno)))
    one_file "notes.txt" (Py.join_nl ["alpha"; "beta"])
    [mkHunk "alpha" [("-"%char, "alpha"); ("+"%char, "ALPHA")] 0] []
    eq_refl eq_refl).
Defined.

(** ** Several hunks in one block *)

Lemma first_header_line_prefix
    (pre tail tail' : list string) (hdr : string) (k : nat) :
  (k < length pre)%nat →
  first_header_line (pre ++ tail) hdr k →
  first_header_line (pre ++ tail') hdr k.
Proof.
  intros Hk [(line & Hline & Heq) Hfirst]. split.
  - exists line. split; [|exact Heq].
    rewrite lookup_app_l in Hline by exact Hk. now rewrite lookup_app_l.
  - intros j y Hj Hjk. apply (Hfirst j); [|exact Hjk].
    rewrite lookup_app_l in Hj by lia. now rewrite lookup_app_l by lia.
Qed.

Lemma region_len_bounds (p : Parts) :
  0 <= Py.len (context_before p) <= region_len p.
Proof. unfold region_len, Py.len. lia. Qed.

(** C3, as stated, fails.  The file is
    [def func1(): / line1 / old1 / line2 / (empty) / def func2(): / lineA /
    old2 / lineB]; each hunk has its [def] line as header and as the first
    of two leading context lines.  The second hunk is applied first: its
    header is at index 5, its start index is 5 - 2 + 1 = 4, and the merge
    there drops the empty line and leaves [lineB] twice. *)
Lemma two_hunks_as_specified_fails :
  apply_hunks (reverse [func1_hunk; func2_hunk])
    ["def func1():"; "    line1"; "    old1"; "    line2"; "";
     "def func2():"; "    lineA"; "    old2"; "    lineB"]
  = Some ["def func1():"; "    line1"; "    new1"; "    line2";
          "def func2():"; "    lineA"; "    new2"; "    lineB"; "    lineB"]
  ∧ ¬ two_hunks_as_specified [] [""] [] func1_hunk func2_hunk.
Proof.
  split; [reflexivity|]. intros H.
  unfold two_hunks_as_specified in H. cbv zeta in H.
  assert (first_header_line
            ([] ++ expected_lines (hunk_parts (hunk_lines func1_hunk))
                ++ [""] ++ expected_lines (hunk_parts (hunk_lines func2_hunk))
                ++ []) "def func1():" 0) as H1.
  { split; [exists "def func1():"; split; reflexivity|]. intros j y _ Hj. lia. }
  assert (first_header_line
            ([] ++ expected_lines (hunk_parts (hunk_lines func1_hunk))
                ++ [""] ++ expected_lines (hunk_parts (hunk_lines func2_hunk))
                ++ []) "def func2():" 5) as H2.
  { split; [exists "def func2():"; split; reflexivity|]. intros j y Hj Hlt.
    do 5 (destruct j as [|j]; [injection Hj as <-; discriminate|]). lia. }
  specialize (H (ex_intro _ _ H1) (ex_intro _ _ H2)). discriminate H.
Qed.

(** C3, amended.  The hunks of a block are applied last to first: the last
    hunk of the block is applied to the lines as read and the hunks before
    it to its result.  For a file [A ++ R1 ++ B ++ R2 ++ C] and a block with
    the hunks [h1], [h2] in this order, where the header match of [h1] puts
    its start index at the first line of [R1] and the header match of [h2]
    puts its start index at the first line of [R2], the update succeeds and
    writes [A ++ new1 ++ B ++ new2 ++ C], each [new] being
    [context_before + added + context_after] of its hunk. *)
Theorem hunks_applied_in_reverse :
  (∀ (fs : FS) (path text : string) (hs : list Hunk) (last : Hunk),
     Os.read fs path = Some text →
     _apply_update fs path (hs ++ [last])
     = match _apply_hunk_to_lines (Py.split_nl text) last with
       | None => (false, fs)
       | Some lines1 =>
           match apply_hunks (reverse hs) lines1 with
           | None => (false, fs)
           | Some lines2 => (true, written fs path (Py.join_nl lines2))
           end
       end)
  ∧ (∀ (fs : FS) (path text : string) (A R1 B R2 C : list string)
       (h1 h2 : Hunk) (k1 k2 : nat),
       let p1 := hunk_parts (hunk_lines h1) in
       let p2 := hunk_parts (hunk_lines h2) in
       let file := A ++ R1 ++ B ++ R2 ++ C in
       Os.read fs path = Some text →
       Py.split_nl text = file →
       Py.len R1 = region_len p1 →
       Py.len R2 = region_len p2 →
       first_header_line file (header h1) k1 →
       Z.max 0 (Z.of_nat k1 - Py.len (context_before p1) + 1) = Py.len A →
       first_header_line file (header h2) k2 →
       Z.max 0 (Z.of_nat k2 - Py.len (context_before p2) + 1)
       = Py.len (A ++ R1 ++ B) →
       _apply_update fs path [h1; h2]
       = (true,
          written fs path
            (Py.join_nl
               (A ++ (context_before p1 ++ additions p1 ++ context_after p1)
                  ++ B
                  ++ (context_before p2 ++ additions p2 ++ context_after p2)
                  ++ C)))).
Proof.
  split.
  - intros fs path text hs last Hread.
    rewrite (apply_update_existing _ _ _ _ Hread), reverse_snoc. simpl.
    destruct (_apply_hunk_to_lines (Py.split_nl text) last); reflexivity.
  - intros fs path text A R1 B R2 C h1 h2 k1 k2 p1 p2 file
      Hread Hsplit HR1 HR2 Hk1 Hs1 Hk2 Hs2.
    rewrite (apply_update_existing _ _ _ _ Hread), Hsplit.
    change (reverse [h1; h2]) with [h2; h1]. cbn [apply_hunks].
    assert (file = (A ++ R1 ++ B) ++ R2 ++ C) as Hfile
      by (unfold file; now rewrite <- !app_assoc).
    rewrite Hfile.
    rewrite (apply_hunk_header_region (A ++ R1 ++ B) R2 C h2 k2);
      [|now rewrite <- Hfile|exact Hs2|exact HR2].
    fold p2. cbv beta iota.
    set (new2 := context_before p2 ++ additions p2 ++ context_after p2 ++ C).
    replace ((A ++ R1 ++ B) ++ new2) with (A ++ R1 ++ B ++ new2)
      by now rewrite <- !app_assoc.
    assert ((k1 < length (A ++ R1 ++ B))%nat) as Hlt.
    { pose proof (region_len_bounds p1). rewrite !length_app.
      unfold Py.len in *. lia. }
    assert (first_header_line (A ++ R1 ++ B ++ new2) (header h1) k1) as Hk1'.
    { rewrite Hfile in Hk1.
      apply (first_header_line_prefix _ _ new2) in Hk1; [|exact Hlt].
      now rewrite <- !app_assoc in Hk1. }
    rewrite (apply_hunk_header_region A R1 (B ++ new2) h1 k1);
      [|exact Hk1'|exact Hs1|exact HR1].
    fold p1. unfold new2. cbv beta iota. now rewrite <- !app_assoc.
Qed.

Lemma hunks_applied_in_reverse_witness :
  Os.read module_fs "m.py" = Some (Py.join_nl two_region_file)
  ∧ _apply_update module_fs "m.py" [first_region_hunk; second_region_hunk]
    = (true,
       written module_fs "m.py"
         (Py.join_nl
            ["# top"; "def f():"; "  x = 1"; "  new1"; "  y"; "";
             "def g():"; "  new2"; "  z"; "# end"])).
Proof.
  split; [reflexivity|].
  refine (proj2 hunks_applied_in_reverse module_fs "m.py"
            (Py.join_nl two_region_file)
            ["# top"] ["def f():"; "  x = 1"; "  old1"; "  y"] [""]
            ["def g():"; "  old2"; "  z"] ["# end"]
            first_region_hunk second_region_hunk 2%nat 6%nat
            eq_refl eq_refl eq_refl eq_refl _ eq_refl _ eq_refl).
  - split; [exists "  x = 1"; split; reflexivity|].
    intros j line Hj Hlt.
    do 2 (destruct j as [|j]; [injection Hj as <-; discriminate|]). lia.
  - split; [exists "def g():"; split; reflexivity|].
    intros j line Hj Hlt.
    do 6 (destruct j as [|j]; [injection Hj as <-; discriminate|]). lia.
Defined.

(** ** Adding a file *)







Lemma ancestry_self (d : string) :
  Path.all_slashes d = false → d ∈ Path.ancestry d.
Proof. intros H. unfold Path.ancestry. simpl. rewrite H. left. Qed.



Lemma append_cons (c : ascii) (a b : string) :
  String c a +:+ b = String c (a +:+ b).
Proof. reflexivity. Qed.






Lemma ends_with_slash_app (a : string) (c : ascii) (b : string) :
  Path.ends_with_slash (a +:+ String c b) = Path.ends_with_slash (String c b).
Proof.
  induction a as [|x a IH]; [reflexivity|].
  rewrite append_cons.
  change (Path.ends_with_slash (String x (a +:+ String c b)))
    with (match a +:+ String c b with
          | EmptyString => Ascii.eqb x Path.slash
          | _ => Path.ends_with_slash (a +:+ String c b)
          end).
  destruct (a +:+ String c b) eqn:E; [|exact IH].
  destruct a; discriminate E.
Qed.




























Lemma write_stored (fs fs' : FS) (p text : string) :
  Os.write fs p text = Some fs' →
  fs' = written fs p text ∧ Os.stored fs' p = Some text.
Proof.
  unfold Os.write. destruct (Os.isdir fs p) eqn:Hd; [discriminate|].
  destruct (_ || _) eqn:Hok; [|discriminate]. intros H. injection H as <-.
  split; [reflexivity|].
  assert (Path.no_nul p = true) as Hnul.
  { apply orb_true_iff in Hok as [Hf|Hf].
    - unfold Os.isfile in Hf. now apply andb_true_iff in Hf as [Hf _].
    - now do 3 apply andb_true_iff in Hf as [Hf _]. }
  unfold Os.stored.
  change (Os.isdir (mkFS _ _ _) p) with (Os.isdir fs p). rewrite Hd.
  unfold Os.isfile. rewrite Hnul. simpl. rewrite lookup_insert_eq.
  rewrite bool_decide_eq_true_2 by eauto. reflexivity.
Qed.


Lemma no_carriage_return_app (a b : string) :
  no_carriage_return (a +:+ b)
  = no_carriage_return a && no_carriage_return b.
Proof.
  induction a as [|c a IH]; [reflexivity|].
  rewrite append_cons. cbn [no_carriage_return]. now rewrite IH, andb_assoc.
Qed.

Lemma join_no_carriage_return (L : list string) :
  Forall (λ w, no_carriage_return w = true) L →
  no_carriage_return (Py.join_nl L) = true.
Proof.
  induction 1 as [|w L Hw HL IH]; [reflexivity|].
  destruct L as [|w' L]; [exact Hw|].
  change (Py.join_nl (w :: w' :: L))
    with (w +:+ String Py.newline (Py.join_nl (w' :: L))).
  rewrite no_carriage_return_app, Hw. cbn [no_carriage_return].
  now rewrite IH.
Qed.





(** ** The shape of parsed blocks *)

Lemma find_action_keyword (lines : list string) (n : nat) (i : Z)
    (act path : string) (j : Z) :
  find_action lines n i = Some (act, path, j) →
  act = "Update" ∨ act = "Add" ∨ act = "Delete".
Proof.
  revert i. induction n as [|n IH]; intros i H; simpl in H; [discriminate|].
  destruct (Py.startswith _ UPDATE_FILE); [injection H as <- _ _; auto|].
  destruct (Py.startswith _ ADD_FILE); [injection H as <- _ _; auto|].
  destruct (Py.startswith _ DELETE_FILE); [injection H as <- _ _; auto|].
  destruct (String.eqb _ END_PATCH); [discriminate|]. eauto.
Qed.

Lemma parse_block_shape (fuel : nat) (lines : list string) (start_idx : Z)
    (b : Block) :
  _parse_block fuel lines start_idx = Some (Some b) → block_shape b.
Proof.
  unfold _parse_block.
  destruct (find_action _ _ _) as [[[act path] i0]|] eqn:Hact;
    [|discriminate].
  apply find_action_keyword in Hact.
  destruct Hact as [ -> | [ -> | -> ] ]; simpl.
  - destruct (update_loop _ _ _ _) as [[i' hs]|]; [|discriminate].
    intros H. injection H as <-. unfold block_shape. simpl.
    split; [auto|]. split; [auto | congruence].
  - destruct (add_loop _ _ _ _) as [i' cs].
    intros H. injection H as <-. unfold block_shape. simpl.
    split; [auto|]. split; [congruence | auto].
  - intros H. injection H as <-. unfold block_shape. simpl.
    split; [auto|]. split; congruence.
Qed.

Lemma parse_loop_shape (fuel : nat) (lines : list string) (i : Z)
    (blocks parsed : list Block) :
  Forall block_shape blocks →
  parse_loop fuel lines i blocks = Some parsed →
  Forall block_shape parsed.
Proof.
  revert i blocks. induction fuel as [|fuel IH]; intros i blocks Hinv H;
    simpl in H; [discriminate|].
  destruct (i <? Py.len lines)%Z; [|now injection H as <-].
  destruct (String.eqb _ BEGIN_PATCH); [|eauto].
  destruct (_parse_block fuel lines (i + 1)) as [[b|]|] eqn:Hb;
    [|eauto|discriminate].
  apply (IH _ _ (Forall_app_2 _ _ _ Hinv
                   (Forall_cons_2 _ _ _ (parse_block_shape _ _ _ _ Hb)
                      (Forall_nil_2 _)))) in H.
  exact H.
Qed.

(** C8.  A block that [_parse_block] returns, and every block of the list
    that [parse_patch] returns, has one of the actions Update, Add and
    Delete, has hunks only if it is an Update and content lines only if it
    is an Add. *)
Theorem parsed_block_shape :
  (∀ (fuel : nat) (lines : list string) (start_idx : Z) (b : Block),
     _parse_block fuel lines start_idx = Some (Some b) → block_shape b)
  ∧ (∀ (fuel : nat) (patch_text : string) (blocks : list Block),
       parse_patch fuel patch_text = Some blocks →
       Forall block_shape blocks).
Proof.
  split; [exact parse_block_shape|].
  intros fuel text blocks. unfold parse_patch.
  destruct (negb _); [intros H; injection H as <-; constructor|].
  apply parse_loop_shape. constructor.
Qed.

Lemma parsed_block_shape_witness :
  parse_patch 20 sample_patch = Some sample_blocks
  ∧ Forall block_shape sample_blocks.
Proof.
  split; [reflexivity|].
  exact (proj2 parsed_block_shape 20%nat sample_patch sample_blocks eq_refl).
Defined.

(** ** Fuel *)

(** A result does not depend on the fuel that produced it. *)
Lemma update_loop_more_fuel (fuel extra : nat) (lines : list string) (i : Z)
    (acc : list Hunk) (r : Z * list Hunk) :
  update_loop fuel lines i acc = Some r →
  update_loop (fuel + extra) lines i acc = Some r.
Proof.
  revert i acc. induction fuel as [|fuel IH]; intros i acc H; simpl in *;
    [discriminate|].
  destruct ((i <? Py.len lines)%Z && negb (is_end lines i)); [|exact H].
  destruct (Py.startswith (Py.item lines i) "@@"); [|eauto].
  destruct (_parse_hunk lines i); eauto.
Qed.

Lemma parse_block_more_fuel (fuel extra : nat) (lines : list string) (i : Z)
    (r : option Block) :
  _parse_block fuel lines i = Some r →
  _parse_block (fuel + extra) lines i = Some r.
Proof.
  unfold _parse_block.
  destruct (find_action _ _ _) as [[[act path] i0]|]; [|easy].
  destruct (String.eqb act "Delete"); [easy|].
  destruct (String.eqb act "Add"); [easy|].
  destruct (update_loop fuel _ _ _) as [r'|] eqn:Hu; [|discriminate].
  now rewrite (update_loop_more_fuel _ extra _ _ _ _ Hu).
Qed.

Lemma parse_loop_more_fuel (fuel extra : nat) (lines : list string) (i : Z)
    (blocks parsed : list Block) :
  parse_loop fuel lines i blocks = Some parsed →
  parse_loop (fuel + extra) lines i blocks = Some parsed.
Proof.
  revert i blocks. induction fuel as [|fuel IH]; intros i blocks H;
    simpl in *; [discriminate|].
  destruct (i <? Py.len lines)%Z; [|exact H].
  destruct (String.eqb _ BEGIN_PATCH); [|eauto].
  destruct (_parse_block fuel lines (i + 1)) as [r|] eqn:Hb; [|discriminate].
  rewrite (parse_block_more_fuel _ extra _ _ _ Hb).
  destruct r; eauto.
Qed.

(** ** Termination of the parser *)

Lemma hunk_loop_exit (lines : list string) (n : nat) (i : Z)
    (acc : list (ascii * string)) :
  i - 1 <= (hunk_loop lines n i acc).1
  ∧ ((hunk_loop lines n i acc).1 = i - 1 →
     n ≠ 0%nat ∧ Py.startswith (Py.item lines i) "@@" = true).
Proof.
  revert i acc. induction n as [|n IH]; intros i acc; simpl.
  - split; lia.
  - destruct (String.eqb _ END_PATCH); [simpl; split; lia|].
    destruct (Py.startswith (Py.item lines i) "@@") eqn:Hat;
      [simpl; split; [lia | intros _; split; [lia | reflexivity]]|].
    repeat
      (match goal with
       | |- context [if ?b then _ else _] => destruct b
       end;
       [match goal with
        | |- context [hunk_loop lines n (i + 1) ?a] =>
            destruct (IH (i + 1) a) as [Hge _]; split; lia
        end|]).
    simpl. split; lia.
Qed.

Lemma parse_hunk_end_index (lines : list string) (s : Z) (h : Hunk) :
  _parse_hunk lines s = Some h →
  s - 1 <= hunk_end_index h
  ∧ (hunk_end_index h = s - 1 →
     s + 1 < Py.len lines
     ∧ Py.startswith (Py.item lines (s + 1)) "@@" = true).
Proof.
  unfold _parse_hunk. destruct (negb _); [discriminate|].
  pose proof (hunk_loop_exit lines (Z.to_nat (Py.len lines - (s + 1)))
                (s + 1) []) as [Hge Heq].
  destruct (hunk_loop _ _ _ _) as [i' hl]. simpl in *.
  intros H. injection H as <-. simpl. split; [lia|].
  intros He. destruct Heq as [Hn Hat]; [lia|]. split; [lia | exact Hat].
Qed.

Lemma parse_hunk_some (lines : list string) (s : Z) :
  Py.startswith (Py.item lines s) "@@" = true →
  ∃ h, _parse_hunk lines s = Some h.
Proof.
  intros Hat. unfold _parse_hunk. rewrite Hat. simpl.
  destruct (hunk_loop _ _ _ _). eauto.
Qed.

Lemma update_loop_terminates (lines : list string) :
  no_stacked_headers lines →
  ∀ (n : nat) (i : Z) (acc : list Hunk),
    0 <= i → Py.len lines - i <= Z.of_nat n →
    ∃ i' hs, update_loop (S n) lines i acc = Some (i', hs) ∧ i <= i'.
Proof.
  intros Hfree n. induction n as [|n IH]; intros i acc Hi Hn.
  - simpl. destruct (Z.ltb_spec i (Py.len lines)); [lia|]. simpl.
    exists i, acc. split; [reflexivity | lia].
  - cbn [update_loop].
    destruct ((i <? Py.len lines)%Z && negb (is_end lines i)) eqn:Hgo;
      [|exists i, acc; split; [reflexivity | lia]].
    apply andb_true_iff in Hgo as [Hlt _]. apply Z.ltb_lt in Hlt.
    destruct (Py.startswith (Py.item lines i) "@@") eqn:Hat.
    + destruct (parse_hunk_some _ _ Hat) as [h Hh]. rewrite Hh.
      destruct (parse_hunk_end_index _ _ _ Hh) as [Hge Heq].
      assert (hunk_end_index h ≠ i - 1) as Hne.
      { intros He. destruct (Heq He) as [Hin Hnext].
        rewrite (Hfree i Hi Hin Hat) in Hnext. discriminate. }
      destruct (IH (hunk_end_index h + 1) (acc ++ [h])) as (i' & hs & Hr & Hle);
        [lia | lia |].
      exists i', hs. split; [exact Hr | lia].
    + destruct (IH (i + 1) acc) as (i' & hs & Hr & Hle); [lia | lia |].
      exists i', hs. split; [exact Hr | lia].
Qed.

Lemma find_action_index (lines : list string) (n : nat) (i : Z)
    (act path : string) (j : Z) :
  find_action lines n i = Some (act, path, j) → i <= j.
Proof.
  revert i. induction n as [|n IH]; intros i H; simpl in H; [discriminate|].
  destruct (Py.startswith _ UPDATE_FILE); [injection H as _ _ <-; lia|].
  destruct (Py.startswith _ ADD_FILE); [injection H as _ _ <-; lia|].
  destruct (Py.startswith _ DELETE_FILE); [injection H as _ _ <-; lia|].
  destruct (String.eqb _ END_PATCH); [discriminate|].
  apply IH in H. lia.
Qed.

Lemma delete_loop_index (lines : list string) (n : nat) (i : Z) :
  i <= delete_loop lines n i.
Proof.
  revert i. induction n as [|n IH]; intros i; simpl; [lia|].
  destruct (is_end lines i); [lia|]. specialize (IH (i + 1)). lia.
Qed.

Lemma add_loop_index (lines : list string) (n : nat) (i : Z)
    (acc : list string) :
  i <= (add_loop lines n i acc).1.
Proof.
  revert i acc. induction n as [|n IH]; intros i acc; simpl; [lia|].
  destruct (is_end lines i); [simpl; lia|].
  destruct (Py.startswith _ "+");
    match goal with
    | |- context [add_loop lines n (i + 1) ?a] =>
        specialize (IH (i + 1) a); lia
    end.
Qed.

Lemma parse_block_terminates (lines : list string) (s : Z) (extra : nat) :
  no_stacked_headers lines → 0 <= s →
  ∃ r, _parse_block (S (length lines) + extra) lines s = Some r
       ∧ ∀ b, r = Some b → s + 1 <= end_index b.
Proof.
  intros Hfree Hs. unfold _parse_block.
  destruct (find_action _ _ _) as [[[act path] i0]|] eqn:Hact;
    [|exists None; split; [reflexivity | discriminate]].
  apply find_action_index in Hact.
  destruct (String.eqb act "Delete").
  { eexists. split; [reflexivity|]. intros b Hb. injection Hb as <-. simpl.
    pose proof (delete_loop_index lines
                  (Z.to_nat (Py.len lines - (i0 + 1))) (i0 + 1)). lia. }
  destruct (String.eqb act "Add").
  { pose proof (add_loop_index lines
                  (Z.to_nat (Py.len lines - (i0 + 1))) (i0 + 1) []) as Hge.
    destruct (add_loop _ _ _ _) as [i' cs]. simpl in Hge.
    eexists. split; [reflexivity|]. intros b Hb. injection Hb as <-. simpl.
    lia. }
  destruct (update_loop_terminates lines Hfree (length lines) (i0 + 1) [])
    as (i' & hs & Hr & Hle); [lia | unfold Py.len; lia |].
  rewrite (update_loop_more_fuel _ extra _ _ _ _ Hr).
  eexists. split; [reflexivity|]. intros b Hb. injection Hb as <-. simpl. lia.
Qed.

Lemma parse_loop_terminates (lines : list string) :
  no_stacked_headers lines →
  ∀ (n : nat) (i : Z) (blocks : list Block) (extra : nat),
    0 <= i → Py.len lines - i <= Z.of_nat n →
    ∃ parsed,
      parse_loop (S (n + S (length lines) + extra)) lines i blocks
      = Some parsed.
Proof.
  intros Hfree n. induction n as [|n IH]; intros i blocks extra Hi Hn.
  - simpl. destruct (Z.ltb_spec i (Py.len lines)); [lia | eauto].
  - cbn [parse_loop].
    destruct (Z.ltb_spec i (Py.len lines)); [|eauto].
    replace (S n + S (length lines) + extra)%nat
      with (S (n + S (length lines) + extra)) by lia.
    destruct (String.eqb _ BEGIN_PATCH); [|apply IH; lia].
    replace (S (n + S (length lines) + extra))
      with (S (length lines) + (S n + extra))%nat by lia.
    destruct (parse_block_terminates lines (i + 1) (S n + extra) Hfree)
      as (r & Hr & Hend); [lia|].
    rewrite Hr.
    replace (S (length lines) + (S n + extra))%nat
      with (S (n + S (length lines) + extra)) by lia.
    destruct r as [b|]; [|apply IH; lia].
    specialize (Hend b eq_refl). apply IH; lia.
Qed.

(** On a text without stacked hunk headers the parser returns, with fuel
    twice the number of lines and two. *)
Lemma parse_patch_terminates (patch_text : string) :
  no_stacked_headers (Py.split_nl patch_text) →
  ∃ blocks,
    parse_patch (2 * length (Py.split_nl patch_text) + 2) patch_text
    = Some blocks.
Proof.
  intros Hfree. unfold parse_patch. destruct (negb _); [eauto|].
  set (lines := Py.split_nl patch_text) in *.
  destruct (parse_loop_terminates lines Hfree (length lines) 0 [] 0)
    as [parsed Hp]; [lia | unfold Py.len; lia |].
  exists parsed. rewrite <- Hp. f_equal. lia.
Qed.

(** ** One result for each parsed block *)

Lemma apply_block_path (base_dir : string) (fs : FS) (b : Block) :
  (apply_block base_dir fs b).1.1.1 = file_path b.
Proof.
  unfold apply_block.
  destruct (String.eqb (action b) "Update");
    [destruct (_apply_update _ _ _); reflexivity|].
  destruct (String.eqb (action b) "Add");
    [destruct (_apply_add _ _ _); reflexivity|].
  destruct (String.eqb (action b) "Delete");
    [destruct (_apply_delete _ _); reflexivity | reflexivity].
Qed.

Lemma apply_blocks_paths (base_dir : string) (fs : FS) (bs : list Block) :
  (λ r, r.1.1) <$> (apply_blocks base_dir fs bs).1 = file_path <$> bs.
Proof.
  revert fs. induction bs as [|b bs IH]; intros fs; [reflexivity|].
  simpl. pose proof (apply_block_path base_dir fs b) as Hb.
  destruct (apply_block base_dir fs b) as [r fs1].
  specialize (IH fs1). destruct (apply_blocks base_dir fs1 bs) as [rs fs2].
  simpl in *. f_equal; [exact Hb | exact IH].
Qed.

(** The blocks after a block are applied whatever its outcome, to the file
    system it left. *)
Lemma apply_blocks_app (base_dir : string) (fs : FS) (bs1 bs2 : list Block) :
  apply_blocks base_dir fs (bs1 ++ bs2)
  = let '(rs1, fs1) := apply_blocks base_dir fs bs1 in
    let '(rs2, fs2) := apply_blocks base_dir fs1 bs2 in
    (rs1 ++ rs2, fs2).
Proof.
  revert fs. induction bs1 as [|b bs1 IH]; intros fs; simpl.
  - now destruct (apply_blocks base_dir fs bs2).
  - destruct (apply_block base_dir fs b) as [r fs1]. rewrite IH.
    destruct (apply_blocks base_dir fs1 bs1) as [rs1 fs2].
    now destruct (apply_blocks base_dir fs2 bs2).
Qed.

Lemma apply_patch_parsed (fuel : nat) (patch_text base_dir : string)
    (fs : FS) (blocks : list Block) :
  parse_patch fuel patch_text = Some blocks →
  ∃ results fs',
    apply_patch fuel patch_text base_dir fs = Some (results, fs')
    ∧ length results = length blocks
    ∧ (λ r, r.1.1) <$> results = file_path <$> blocks.
Proof.
  intros Hp. unfold apply_patch. rewrite Hp.
  pose proof (apply_blocks_paths base_dir fs blocks) as Hpaths.
  destruct (apply_blocks base_dir fs blocks) as [results fs'].
  exists results, fs'. split; [reflexivity|]. split; [|exact Hpaths].
  apply (f_equal length) in Hpaths. now rewrite !length_fmap in Hpaths.
Qed.

(** On a text without stacked hunk headers [apply_patch] returns one result
    for each parsed block, with the paths of the blocks in their order. *)
Lemma apply_patch_returns (patch_text base_dir : string) (fs : FS) :
  no_stacked_headers (Py.split_nl patch_text) →
  ∃ blocks results fs',
    parse_patch (2 * length (Py.split_nl patch_text) + 2) patch_text
    = Some blocks
    ∧ apply_patch (2 * length (Py.split_nl patch_text) + 2) patch_text
        base_dir fs
      = Some (results, fs')
    ∧ length results = length blocks
    ∧ (λ r, r.1.1) <$> results = file_path <$> blocks.
Proof.
  intros Hfree. destruct (parse_patch_terminates _ Hfree) as [blocks Hp].
  destruct (apply_patch_parsed _ _ base_dir fs _ Hp)
    as (results & fs' & Ha & Hlen & Hpaths).
  now exists blocks, results, fs'.
Qed.

(** ** A hunk header followed at once by another hunk header *)

Lemma stacked_update_loop (fuel : nat) (acc : list Hunk) :
  update_loop fuel stacked_lines 2 acc = None.
Proof.
  revert acc. induction fuel as [|fuel IH]; intros acc; [reflexivity|].
  change (update_loop (S fuel) stacked_lines 2 acc)
    with (update_loop fuel stacked_lines 2 (acc ++ [empty_hunk])).
  apply IH.
Qed.

Lemma stacked_parse_block (fuel : nat) :
  _parse_block fuel stacked_lines 1 = None.
Proof.
  change (_parse_block fuel stacked_lines 1)
    with (match update_loop fuel stacked_lines 2 [] with
          | None => None
          | Some (i', hs) => Some (Some (mkBlock "Update" "x" hs [] i'))
          end).
  now rewrite stacked_update_loop.
Qed.

(** C6, at the patch [stacked_patch].  [_parse_hunk] at the line [@@ a]
    (index 2) returns the end index 1, the Update loop of [_parse_block]
    resumes at index 2 with one more hunk in its list, and so on: no amount
    of fuel lets the parser return, and [apply_patch] yields no list. *)
Theorem apply_patch_stacked_headers :
  _parse_hunk stacked_lines 2 = Some empty_hunk
  ∧ (∀ (fuel : nat) (acc : list Hunk),
       update_loop (S fuel) stacked_lines 2 acc
       = update_loop fuel stacked_lines 2 (acc ++ [empty_hunk]))
  ∧ (∀ fuel : nat, parse_patch fuel stacked_patch = None)
  ∧ (∀ (fuel : nat) (base_dir : string) (fs : FS),
       apply_patch fuel stacked_patch base_dir fs = None).
Proof.
  assert (∀ fuel : nat, parse_patch fuel stacked_patch = None) as Hparse.
  { intros [|fuel]; [reflexivity|].
    change (parse_patch (S fuel) stacked_patch)
      with (match _parse_block fuel stacked_lines 1 with
            | None => None
            | Some (Some block) =>
                parse_loop fuel stacked_lines (end_index block + 1)
                  ([] ++ [block])
            | Some None => parse_loop fuel stacked_lines (0 + 1 + 1) []
            end).
    now rewrite stacked_parse_block. }
  split; [reflexivity|]. split; [reflexivity|]. split; [exact Hparse|].
  intros fuel base_dir fs. unfold apply_patch. now rewrite Hparse.
Qed.

(** * Further properties *)

(** ** Deleting a file *)

Lemma isfile_lookup (fs : FS) (p : string) :
  Os.isfile fs p = true → is_Some (files fs !! p).
Proof.
  unfold Os.isfile. intros [_ H]%andb_true_iff.
  now apply bool_decide_eq_true in H.
Qed.

Lemma read_some (fs : FS) (p : string) :
  is_Some (Os.read fs p) ↔ Os.isfile fs p && negb (Os.isdir fs p) = true.
Proof.
  unfold Os.read, Os.stored. destruct (Os.isfile fs p && negb _) eqn:E.
  - apply andb_true_iff in E as [[x Hx]%isfile_lookup _]. rewrite Hx.
    simpl. split; eauto.
  - simpl. split; [intros [? ?]; discriminate | discriminate].
Qed.

(** X1.  Deleting a regular file returns [True]; afterwards the path does
    not exist, every other file and every directory is as before, one
    removal is logged, and deleting the same path again returns [False] and
    changes nothing. *)
Theorem delete_then_delete_again (fs : FS) (path text : string) :
  Os.read fs path = Some text →
  ∃ fs',
    _apply_delete fs path = (true, fs')
    ∧ Os.path_exists fs' path = false
    ∧ (∀ q, q ≠ path → files fs' !! q = files fs !! q)
    ∧ dirs fs' = dirs fs
    ∧ oplog fs' = oplog fs ++ [OpRemove path]
    ∧ _apply_delete fs' path = (false, fs').
Proof.
  intros Hread. destruct (read_is_file _ _ _ Hread) as (Hd & Hf).
  unfold _apply_delete at 1. unfold Os.path_exists, Os.remove.
  rewrite Hf, Hd. simpl. eexists. split; [reflexivity|].
  assert (Os.path_exists
            (mkFS (delete path (files fs)) (dirs fs)
               (oplog fs ++ [OpRemove path])) path = false) as Hgone.
  { unfold Os.path_exists.
    change (Os.isdir _ path) with (Os.isdir fs path). rewrite Hd, orb_false_r.
    unfold Os.isfile. apply andb_false_iff. right.
    apply bool_decide_eq_false. simpl. rewrite lookup_delete_eq.
    intros [? ?]; discriminate. }
  split; [exact Hgone|]. split; [intros q Hq; simpl; now apply lookup_delete_ne|].
  split; [reflexivity|]. split; [reflexivity|].
  unfold _apply_delete. now rewrite Hgone.
Qed.

Lemma delete_then_delete_again_witness :
  Os.read project_fs "b.txt" = Some "two"
  ∧ ∃ fs',
      _apply_delete project_fs "b.txt" = (true, fs')
      ∧ Os.path_exists fs' "b.txt" = false
      ∧ (∀ q, q ≠ "b.txt" → files fs' !! q = files project_fs !! q)
      ∧ dirs fs' = dirs project_fs
      ∧ oplog fs' = oplog project_fs ++ [OpRemove "b.txt"]
      ∧ _apply_delete fs' "b.txt" = (false, fs').
Proof.
  split; [reflexivity|].
  exact (delete_then_delete_again project_fs "b.txt" "two" eq_refl).
Defined.

(** X2.  A Delete succeeds exactly on a regular file: on a missing path and
    on a directory it returns [False], and whenever it returns [False] the
    file system is the one before the call. *)
Theorem delete_succeeds_on_files_only (fs : FS) (path : string) :
  ((_apply_delete fs path).1 = true ↔ is_Some (Os.read fs path))
  ∧ ((_apply_delete fs path).1 = false → (_apply_delete fs path).2 = fs).
Proof.
  rewrite read_some. unfold _apply_delete, Os.path_exists, Os.remove.
  destruct (Os.isfile fs path), (Os.isdir fs path); simpl;
    (split; [split; congruence | congruence]).
Qed.

(** ** What a patch leaves alone *)

Lemma write_frame (fs fs' : FS) (p text : string) :
  Os.write fs p text = Some fs' →
  (∀ q, q ≠ p → files fs' !! q = files fs !! q) ∧ dirs fs' = dirs fs.
Proof.
  unfold Os.write. destruct (Os.isdir fs p); [discriminate|].
  destruct (_ || _); [|discriminate]. intros H. injection H as <-.
  split; [intros q Hq; simpl; now apply lookup_insert_ne | reflexivity].
Qed.

Lemma update_frame (fs : FS) (path : string) (hs : list Hunk) :
  (∀ q, q ≠ path → files (_apply_update fs path hs).2 !! q = files fs !! q)
  ∧ dirs (_apply_update fs path hs).2 = dirs fs.
Proof.
  unfold _apply_update. destruct (negb _); [easy|].
  destruct (Os.read fs path); [|easy].
  destruct (apply_hunks _ _); [|easy].
  destruct (Os.write fs path _) as [fs'|] eqn:Hw; [|easy].
  exact (write_frame _ _ _ _ Hw).
Qed.

Lemma add_frame (fs : FS) (path : string) (content : list string) :
  (∀ q, q ≠ path → files (_apply_add fs path content).2 !! q = files fs !! q)
  ∧ dirs fs ⊆ dirs (_apply_add fs path content).2.
Proof.
  unfold _apply_add.
  assert (∀ fs1, (files fs1 = files fs ∧ dirs fs ⊆ dirs fs1) →
            (∀ q, q ≠ path →
               files (match Os.write fs1 path (Py.join_nl content) with
                      | None => (false, fs1)
                      | Some fs2 => (true, fs2)
                      end).2 !! q = files fs !! q)
            ∧ dirs fs ⊆ dirs (match Os.write fs1 path (Py.join_nl content) with
                              | None => (false, fs1)
                              | Some fs2 => (true, fs2)
                              end).2) as Hstep.
  { intros fs1 [Hfiles Hdirs].
    destruct (Os.write fs1 path _) as [fs2|] eqn:Hw; simpl.
    - destruct (write_frame _ _ _ _ Hw) as [Hf Hd].
      split; [intros q Hq; now rewrite Hf, Hfiles | now rewrite Hd].
    - split; [intros q _; now rewrite Hfiles | exact Hdirs]. }
  assert (∀ fs1 : FS, files fs1 = files fs ∧ dirs fs ⊆ dirs fs1 →
            (∀ q, q ≠ path → files fs1 !! q = files fs !! q)
            ∧ dirs fs ⊆ dirs fs1) as Hstop.
  { intros fs1 [Hfiles Hdirs]. split; [|exact Hdirs].
    intros q _. now rewrite Hfiles. }
  destruct (Py.nonempty _ && negb _); [|now apply Hstep].
  unfold Os.makedirs. destruct (_ || _); [now apply Hstop|].
  destruct (Path.no_nul (Path.dirname path) && negb _);
    [apply Hstep | apply Hstop];
    (split; [reflexivity|]; simpl; apply union_subseteq_r).
Qed.

Lemma delete_frame (fs : FS) (path : string) :
  (∀ q, q ≠ path → files (_apply_delete fs path).2 !! q = files fs !! q)
  ∧ dirs (_apply_delete fs path).2 = dirs fs.
Proof.
  unfold _apply_delete, Os.remove. destruct (Os.path_exists fs path); [|easy].
  destruct (_ && _); [|easy].
  split; [intros q Hq; simpl; now apply lookup_delete_ne | reflexivity].
Qed.

Lemma apply_block_frame (base_dir : string) (fs : FS) (b : Block) :
  (∀ q, q ≠ target base_dir b →
        files (apply_block base_dir fs b).2 !! q = files fs !! q)
  ∧ dirs fs ⊆ dirs (apply_block base_dir fs b).2.
Proof.
  unfold apply_block, target.
  destruct (String.eqb (action b) "Update").
  { pose proof (update_frame fs (Path.join base_dir (file_path b)) (hunks b))
      as [Hf Hd].
    destruct (_apply_update _ _ _). simpl in *. now rewrite Hd. }
  destruct (String.eqb (action b) "Add").
  { pose proof (add_frame fs (Path.join base_dir (file_path b)) (content b))
      as [Hf Hd].
    destruct (_apply_add _ _ _). simpl in *. easy. }
  destruct (String.eqb (action b) "Delete").
  { pose proof (delete_frame fs (Path.join base_dir (file_path b)))
      as [Hf Hd].
    destruct (_apply_delete _ _). simpl in *. now rewrite Hd. }
  easy.
Qed.

Lemma apply_blocks_frame (base_dir : string) (fs : FS) (bs : list Block) :
  (∀ q, q ∉ target base_dir <$> bs →
        files (apply_blocks base_dir fs bs).2 !! q = files fs !! q)
  ∧ dirs fs ⊆ dirs (apply_blocks base_dir fs bs).2.
Proof.
  revert fs. induction bs as [|b bs IH]; intros fs; [easy|].
  simpl. pose proof (apply_block_frame base_dir fs b) as [Hf Hd].
  destruct (apply_block base_dir fs b) as [r fs1].
  specialize (IH fs1) as [Hfs Hds].
  destruct (apply_blocks base_dir fs1 bs) as [rs fs2]. simpl in *.
  split; [|now transitivity (dirs fs1)].
  intros q Hq. rewrite not_elem_of_cons in Hq. destruct Hq as [Hq1 Hq2].
  now rewrite Hfs, Hf.
Qed.

(** X3.  Applying a patch changes no file but the ones its blocks name
    (each joined to the base directory), and removes no directory. *)
Theorem apply_patch_touches_named_files_only
    (fuel : nat) (patch_text base_dir : string) (fs fs' : FS)
    (results : list (string * bool * string)) :
  apply_patch fuel patch_text base_dir fs = Some (results, fs') →
  ∃ blocks,
    parse_patch fuel patch_text = Some blocks
    ∧ (∀ q, q ∉ target base_dir <$> blocks →
            files fs' !! q = files fs !! q)
    ∧ dirs fs ⊆ dirs fs'.
Proof.
  unfold apply_patch.
  destruct (parse_patch fuel patch_text) as [blocks|]; [|discriminate].
  intros H. injection H as H. exists blocks. split; [reflexivity|].
  pose proof (apply_blocks_frame base_dir fs blocks) as Hframe.
  now rewrite H in Hframe.
Qed.

Lemma apply_patch_touches_named_files_only_witness :
  ∃ blocks,
    parse_patch 20 sample_patch = Some blocks
    ∧ (∀ q, q ∉ target "" <$> blocks →
            files (apply_blocks "" project_fs sample_blocks).2 !! q
            = files project_fs !! q)
    ∧ dirs project_fs ⊆ dirs (apply_blocks "" project_fs sample_blocks).2.
Proof.
  exact (apply_patch_touches_named_files_only 20 sample_patch "" project_fs
           (apply_blocks "" project_fs sample_blocks).2
           (apply_blocks "" project_fs sample_blocks).1 eq_refl).
Defined.

(** ** Flags and messages *)

Lemma apply_block_message (base_dir : string) (fs : FS) (b : Block) :
  block_shape b → message_fits (apply_block base_dir fs b).1.
Proof.
  intros [Hact _]. unfold apply_block.
  destruct Hact as [ -> | [ -> | -> ] ]; simpl.
  - destruct (_apply_update _ _ _) as [[] ?]; simpl; auto.
  - destruct (_apply_add _ _ _) as [[] ?]; simpl; auto.
  - destruct (_apply_delete _ _) as [[] ?]; simpl; auto.
Qed.

Lemma apply_blocks_messages (base_dir : string) (fs : FS) (bs : list Block) :
  Forall block_shape bs →
  Forall message_fits (apply_blocks base_dir fs bs).1.
Proof.
  intros Hall. revert fs. induction Hall as [|b bs Hb _ IH]; intros fs;
    [constructor|].
  simpl. pose proof (apply_block_message base_dir fs b Hb) as Hm.
  destruct (apply_block base_dir fs b) as [r fs1]. specialize (IH fs1).
  destruct (apply_blocks base_dir fs1 bs) as [rs fs2]. now constructor.
Qed.

(** X4.  Every result of [apply_patch] carries the message of its flag for
    one of the three actions: a success message with [True], a failure
    message with [False].  The message for an unknown action is never
    produced, because the parser returns no block with another action. *)
Theorem apply_patch_messages
    (fuel : nat) (patch_text base_dir : string) (fs fs' : FS)
    (results : list (string * bool * string)) :
  apply_patch fuel patch_text base_dir fs = Some (results, fs') →
  Forall message_fits results.
Proof.
  unfold apply_patch.
  destruct (parse_patch fuel patch_text) as [blocks|] eqn:Hp; [|discriminate].
  intros H. injection H as H.
  assert (Forall block_shape blocks) as Hshape.
  { unfold parse_patch in Hp. destruct (negb _).
    - injection Hp as <-. constructor.
    - apply (parse_loop_shape _ _ _ _ _ (Forall_nil_2 _) Hp). }
  pose proof (apply_blocks_messages base_dir fs blocks Hshape) as Hm.
  now rewrite H in Hm.
Qed.

Lemma apply_patch_messages_witness :
  apply_patch 20 sample_patch "" project_fs
  = Some ([("file1.py", false, "Failed to apply update");
           ("file2.py", true, "Added successfully");
           ("file3.py", false, "Failed to delete file")],
          (apply_blocks "" project_fs sample_blocks).2)
  ∧ Forall message_fits
      [("file1.py", false, "Failed to apply update");
       ("file2.py", true, "Added successfully");
       ("file3.py", false, "Failed to delete file")].
Proof.
  split; [reflexivity|].
  exact (apply_patch_messages 20 sample_patch "" project_fs _ _ eq_refl).
Defined.

(** ** Texts without blocks *)

Lemma lstrip_blank (s : string) : blank s = true → Py.lstrip s = "".
Proof.
  induction s as [|c s IH]; simpl; [reflexivity|].
  intros [Hc Hs]%andb_true_iff. rewrite Hc. auto.
Qed.

(** X5.  A patch text that is empty or holds only white space parses to no
    block, with any fuel, and applying it returns the empty list of results
    and the file system as it was. *)
Theorem blank_patch_is_empty
    (fuel : nat) (patch_text base_dir : string) (fs : FS) :
  blank patch_text = true →
  parse_patch fuel patch_text = Some []
  ∧ apply_patch fuel patch_text base_dir fs = Some ([], fs).
Proof.
  intros Hb.
  assert (parse_patch fuel patch_text = Some []) as Hp.
  { unfold parse_patch, Py.strip. now rewrite (lstrip_blank _ Hb). }
  split; [exact Hp|]. unfold apply_patch. now rewrite Hp.
Qed.

Lemma blank_patch_is_empty_witness :
  blank (Py.join_nl ["   "; "  "; "  "]) = true
  ∧ parse_patch 0 (Py.join_nl ["   "; "  "; "  "]) = Some []
  ∧ apply_patch 0 (Py.join_nl ["   "; "  "; "  "]) "." project_fs
    = Some ([], project_fs).
Proof.
  split; [reflexivity|].
  exact (blank_patch_is_empty 0 (Py.join_nl ["   "; "  "; "  "]) "."
           project_fs eq_refl).
Defined.

Lemma item_lookup (lines : list string) (i : Z) :
  0 <= i < Py.len lines →
  lines !! Z.to_nat i = Some (Py.item lines i).
Proof.
  intros Hi. unfold Py.item, Py.len in *. rewrite nth_lookup.
  destruct (lookup_lt_is_Some_2 lines (Z.to_nat i)) as [x Hx]; [lia|].
  now rewrite Hx.
Qed.

Lemma item_elem_of (lines : list string) (i : Z) :
  0 <= i < Py.len lines → Py.item lines i ∈ lines.
Proof. intros Hi. eapply list_elem_of_lookup_2, item_lookup, Hi. Qed.

Lemma parse_loop_no_begin (lines : list string) :
  (∀ line, line ∈ lines → Py.strip line ≠ BEGIN_PATCH) →
  ∀ (n : nat) (i : Z) (blocks : list Block) (extra : nat),
    0 <= i → Py.len lines - i <= Z.of_nat n →
    parse_loop (S n + extra) lines i blocks = Some blocks.
Proof.
  intros Hno n. induction n as [|n IH]; intros i blocks extra Hi Hn; simpl.
  - destruct (Z.ltb_spec i (Py.len lines)); [lia | reflexivity].
  - destruct (Z.ltb_spec i (Py.len lines)); [|reflexivity].
    destruct (String.eqb_spec (Py.strip (Py.item lines i)) BEGIN_PATCH)
      as [Hb|_].
    + exfalso. apply (Hno (Py.item lines i)); [|exact Hb].
      apply item_elem_of. lia.
    + apply (IH (i + 1) blocks extra); lia.
Qed.

(** X6.  A patch text none of whose lines is the opening marker, whatever
    else it holds, parses to no block, and applying it returns no result and
    leaves the file system as it was. *)
Theorem patch_without_begin_marker
    (patch_text base_dir : string) (fs : FS) (extra : nat) :
  (∀ line, line ∈ Py.split_nl patch_text → Py.strip line ≠ BEGIN_PATCH) →
  parse_patch (S (length (Py.split_nl patch_text)) + extra) patch_text
  = Some []
  ∧ apply_patch (S (length (Py.split_nl patch_text)) + extra) patch_text
      base_dir fs
    = Some ([], fs).
Proof.
  intros Hno.
  assert (parse_patch (S (length (Py.split_nl patch_text)) + extra)
            patch_text = Some []) as Hp.
  { unfold parse_patch. destruct (negb _); [reflexivity|].
    apply parse_loop_no_begin; [exact Hno | lia | unfold Py.len; lia]. }
  split; [exact Hp|]. unfold apply_patch. now rewrite Hp.
Qed.

Lemma patch_without_begin_marker_witness :
  (∀ line, line ∈ Py.split_nl unwrapped_patch → Py.strip line ≠ BEGIN_PATCH)
  ∧ parse_patch 7 unwrapped_patch = Some []
  ∧ apply_patch 7 unwrapped_patch "." project_fs = Some ([], project_fs).
Proof.
  assert (∀ line, line ∈ Py.split_nl unwrapped_patch →
                  Py.strip line ≠ BEGIN_PATCH) as Hno.
  { intros line Hin. apply list_elem_of_In in Hin. simpl in Hin.
    repeat (destruct Hin as [<-|Hin]; [discriminate|]). destruct Hin. }
  split; [exact Hno|].
  exact (patch_without_begin_marker unwrapped_patch "." project_fs 0 Hno).
Defined.

(** ** Segments that are dropped *)

Lemma end_line_is_no_action (line : string) :
  Py.strip line = END_PATCH → is_action_line line = false.
Proof. intros H. unfold is_action_line. now rewrite H. Qed.

Lemma find_action_dropped (lines : list string) (e : Z) :
  e < Py.len lines → is_end lines e = true →
  ∀ (k : nat) (s : Z) (n : nat),
    0 <= s → e - s = Z.of_nat k → (k < n)%nat →
    (∀ j, s <= j < e → is_action_line (Py.item lines j) = false) →
    find_action lines n s = None.
Proof.
  intros He Hend k. induction k as [|k IH]; intros s n Hs Hk Hn Hjunk;
    (destruct n as [|n]; [lia|]); simpl.
  - assert (s = e) as -> by lia.
    unfold is_end in Hend. apply String.eqb_eq in Hend.
    pose proof (end_line_is_no_action _ Hend) as Hna.
    unfold is_action_line in Hna.
    apply orb_false_iff in Hna as [Hna Hd].
    apply orb_false_iff in Hna as [Hu Ha].
    rewrite Hu, Ha, Hd, Hend. reflexivity.
  - pose proof (Hjunk s ltac:(lia)) as Hna. unfold is_action_line in Hna.
    apply orb_false_iff in Hna as [Hna Hd].
    apply orb_false_iff in Hna as [Hu Ha].
    rewrite Hu, Ha, Hd.
    destruct (String.eqb _ END_PATCH); [reflexivity|].
    apply IH; [lia | lia | lia |]. intros j Hj. apply Hjunk. lia.
Qed.

(** X7.  After an opening marker at line [i], when an end marker comes at
    line [e] with no action header between the two (a header naming another
    action counts as none), [_parse_block] returns nothing for the segment
    and the main loop goes on at line [i + 2] with the blocks it had. *)
Theorem segment_without_action_is_dropped
    (lines : list string) (i e : Z) (blocks : list Block) (fuel : nat) :
  0 <= i → i + 1 <= e < Py.len lines →
  Py.strip (Py.item lines i) = BEGIN_PATCH →
  is_end lines e = true →
  (∀ j, i + 1 <= j < e → is_action_line (Py.item lines j) = false) →
  _parse_block fuel lines (i + 1) = Some None
  ∧ parse_loop (S fuel) lines i blocks = parse_loop fuel lines (i + 2) blocks.
Proof.
  intros Hi He Hbegin Hend Hjunk.
  assert (_parse_block fuel lines (i + 1) = Some None) as Hb.
  { unfold _parse_block.
    rewrite (find_action_dropped lines e (proj2 He) Hend
               (Z.to_nat (e - (i + 1))) (i + 1)); [reflexivity | lia | lia | |].
    - unfold Py.len in *. lia.
    - exact Hjunk. }
  split; [exact Hb|]. simpl.
  destruct (Z.ltb_spec i (Py.len lines)); [|lia].
  rewrite Hbegin, Hb. simpl. f_equal. lia.
Qed.

Lemma segment_without_action_is_dropped_witness :
  _parse_block 5 invalid_action_lines (0 + 1) = Some None
  ∧ parse_loop 6 invalid_action_lines 0 []
    = parse_loop 5 invalid_action_lines (0 + 2) [].
Proof.
  apply (segment_without_action_is_dropped invalid_action_lines 0 2 [] 5);
    [lia | unfold Py.len; simpl; lia | reflexivity | reflexivity |].
  intros j Hj. assert (j = 1) as -> by lia. reflexivity.
Defined.

(** ** The lines of a parsed hunk *)

Lemma startswith_char (line : string) (c : ascii) :
  Py.startswith line (String c "") = true →
  line = String c (Py.slice_from 1 line).
Proof.
  unfold Py.startswith. destruct line as [|a line]; simpl; [discriminate|].
  destruct (ascii_dec c a) as [->|]; [reflexivity | discriminate].
Qed.

Lemma hunk_loop_lines (lines : list string) (n : nat) (i : Z)
    (acc : list (ascii * string)) :
  0 <= i → Z.of_nat n <= Py.len lines - i →
  ∃ new,
    (hunk_loop lines n i acc).2 = acc ++ new
    ∧ (∀ j tag text, new !! j = Some (tag, text) →
         valid_tag tag
         ∧ lines !! (Z.to_nat i + j)%nat = Some (String tag text))
    ∧ ((hunk_loop lines n i acc).1 = i + Py.len new
       ∨ (hunk_loop lines n i acc).1 = i + Py.len new - 1).
Proof.
  revert i acc. induction n as [|n IH]; intros i acc Hi Hn.
  - exists []. simpl. rewrite app_nil_r. unfold Py.len. simpl.
    split; [reflexivity|]. split; [intros j ? ? H; discriminate H | lia].
  - assert (∀ c, Py.startswith (Py.item lines i) (String c "") = true →
              valid_tag c →
              ∃ new,
                (hunk_loop lines n (i + 1)
                   (acc ++ [(c, Py.slice_from 1 (Py.item lines i))])).2
                = acc ++ new
                ∧ (∀ j tag text, new !! j = Some (tag, text) →
                     valid_tag tag
                     ∧ lines !! (Z.to_nat i + j)%nat = Some (String tag text))
                ∧ ((hunk_loop lines n (i + 1)
                      (acc ++ [(c, Py.slice_from 1 (Py.item lines i))])).1
                   = i + Py.len new
                   ∨ (hunk_loop lines n (i + 1)
                        (acc ++ [(c, Py.slice_from 1 (Py.item lines i))])).1
                     = i + Py.len new - 1)) as Hstep.
    { intros c Hc Hvalid.
      destruct (IH (i + 1) (acc ++ [(c, Py.slice_from 1 (Py.item lines i))]))
        as (new & Hout & Hnew & Hidx); [lia | lia |].
      exists ((c, Py.slice_from 1 (Py.item lines i)) :: new).
      split; [now rewrite Hout, <- app_assoc|]. split.
      - intros [|j] tag text Hj.
        + injection Hj as <- <-. split; [exact Hvalid|].
          rewrite Nat.add_0_r.
          change (lines !! Z.to_nat i
                  = Some (String c (Py.slice_from 1 (Py.item lines i)))).
          rewrite <- (startswith_char _ _ Hc). apply item_lookup. lia.
        + destruct (Hnew j tag text Hj) as [Hv Hl]. split; [exact Hv|].
          rewrite <- Hl. f_equal. lia.
      - unfold Py.len in *. simpl length. lia. }
    assert (∃ new : list (ascii * string),
              acc = acc ++ new
              ∧ (∀ j tag text, new !! j = Some (tag, text) →
                   valid_tag tag
                   ∧ lines !! (Z.to_nat i + j)%nat = Some (String tag text))
              ∧ True) as (nil' & Hnil & Hnone & _).
    { exists []. rewrite app_nil_r. split; [reflexivity|].
      split; [intros j ? ? H; discriminate H | exact I]. }
    cbn [hunk_loop]. cbv zeta.
    destruct (String.eqb _ END_PATCH).
    { exists []. rewrite app_nil_r. unfold Py.len. simpl.
      split; [reflexivity|]. split; [intros j ? ? H; discriminate H | lia]. }
    destruct (Py.startswith (Py.item lines i) "@@").
    { exists []. rewrite app_nil_r. unfold Py.len. simpl.
      split; [reflexivity|]. split; [intros j ? ? H; discriminate H | lia]. }
    destruct (Py.startswith (Py.item lines i) " ") eqn:Hsp;
      [apply (Hstep _ Hsp); unfold valid_tag; auto|].
    destruct (Py.startswith (Py.item lines i) "-") eqn:Hmi;
      [apply (Hstep _ Hmi); unfold valid_tag; auto|].
    destruct (Py.startswith (Py.item lines i) "+") eqn:Hpl;
      [apply (Hstep _ Hpl); unfold valid_tag; auto|].
    exists []. rewrite app_nil_r. unfold Py.len. simpl.
    split; [reflexivity|]. split; [intros j ? ? H; discriminate H | lia].
Qed.

Lemma parse_hunk_lines (lines : list string) (s : Z) (h : Hunk) :
  0 <= s < Py.len lines →
  _parse_hunk lines s = Some h →
  (∀ j tag text, hunk_lines h !! j = Some (tag, text) →
     valid_tag tag
     ∧ lines !! (Z.to_nat s + 1 + j)%nat = Some (String tag text))
  ∧ (hunk_end_index h = s + Py.len (hunk_lines h)
     ∨ hunk_end_index h = s + Py.len (hunk_lines h) - 1).
Proof.
  intros Hs. unfold _parse_hunk. destruct (negb _); [discriminate|].
  destruct (hunk_loop_lines lines (Z.to_nat (Py.len lines - (s + 1)))
              (s + 1) []) as (new & Hout & Hnew & Hidx); [lia | lia |].
  destruct (hunk_loop _ _ _ _) as [i' hl]. simpl in *. subst hl.
  intros H. injection H as <-. simpl. split; [|lia].
  intros j tag text Hj. destruct (Hnew j tag text Hj) as [Hv Hl].
  split; [exact Hv|]. rewrite <- Hl. f_equal. lia.
Qed.

Lemma header_line_is_no_end (line : string) :
  Py.startswith line "@@" = true →
  String.eqb (Py.strip line) END_PATCH = false.
Proof.
  unfold Py.startswith. destruct line as [|a line];
    [intros H; discriminate H|]. cbn [String.prefix].
  destruct (ascii_dec "@" a) as [<-|]; [|intros H; discriminate H]. intros _.
  unfold Py.strip. change (Py.lstrip (String "@" line)) with (String "@" line).
  cbn [Py.rstrip]. destruct (Py.rstrip line); reflexivity.
Qed.

Lemma item_beyond (lines : list string) (i : Z) :
  Py.len lines <= i → Py.item lines i = "".
Proof.
  intros Hi. unfold Py.item, Py.len in *. apply nth_overflow. lia.
Qed.

Lemma hunk_loop_end (lines : list string) (n : nat) (i : Z)
    (acc : list (ascii * string)) :
  0 <= i → Z.of_nat n = Py.len lines - i →
  ∃ new,
    (hunk_loop lines n i acc).2 = acc ++ new
    ∧ (∀ j tag text, new !! j = Some (tag, text) →
         stops_hunk (Py.item lines (i + Z.of_nat j)) = false)
    ∧ (i + Py.len new < Py.len lines →
       stops_hunk (Py.item lines (i + Py.len new)) = true)
    ∧ (hunk_loop lines n i acc).1
      = if Py.startswith (Py.item lines (i + Py.len new)) "@@"
        then i + Py.len new - 1 else i + Py.len new.
Proof.
  revert i acc. induction n as [|n IH]; intros i acc Hi Hn.
  - exists []. cbn [hunk_loop]. rewrite app_nil_r.
    change (Py.len (@nil (ascii * string))) with 0. rewrite Z.add_0_r.
    rewrite (item_beyond lines i) by lia.
    split; [reflexivity|]. split; [intros j ? ? H; discriminate H|].
    split; [lia | reflexivity].
  - assert (∀ r : Z * list (ascii * string),
              r.2 = acc →
              stops_hunk (Py.item lines i) = true →
              r.1 = (if Py.startswith (Py.item lines i) "@@"
                     then i - 1 else i) →
              ∃ new,
                r.2 = acc ++ new
                ∧ (∀ j tag text, new !! j = Some (tag, text) →
                     stops_hunk (Py.item lines (i + Z.of_nat j)) = false)
                ∧ (i + Py.len new < Py.len lines →
                   stops_hunk (Py.item lines (i + Py.len new)) = true)
                ∧ r.1 = if Py.startswith (Py.item lines (i + Py.len new)) "@@"
                        then i + Py.len new - 1 else i + Py.len new) as Hstop.
    { intros r Hacc Hstops Hidx. exists []. rewrite app_nil_r.
      change (Py.len (@nil (ascii * string))) with 0. rewrite Z.add_0_r.
      split; [exact Hacc|]. split; [intros j ? ? H; discriminate H|].
      split; [intros _; exact Hstops|].
      rewrite Hidx. destruct (Py.startswith _ "@@"); lia. }
    assert (∀ c, String.eqb (Py.strip (Py.item lines i)) END_PATCH = false →
              Py.startswith (Py.item lines i) "@@" = false →
              stops_hunk (Py.item lines i) = false →
              ∃ new,
                (hunk_loop lines n (i + 1)
                   (acc ++ [(c, Py.slice_from 1 (Py.item lines i))])).2
                = acc ++ new
                ∧ (∀ j tag text, new !! j = Some (tag, text) →
                     stops_hunk (Py.item lines (i + Z.of_nat j)) = false)
                ∧ (i + Py.len new < Py.len lines →
                   stops_hunk (Py.item lines (i + Py.len new)) = true)
                ∧ (hunk_loop lines n (i + 1)
                     (acc ++ [(c, Py.slice_from 1 (Py.item lines i))])).1
                  = if Py.startswith (Py.item lines (i + Py.len new)) "@@"
                    then i + Py.len new - 1 else i + Py.len new) as Hstep.
    { intros c He Hh Hgo.
      destruct (IH (i + 1) (acc ++ [(c, Py.slice_from 1 (Py.item lines i))]))
        as (new & Hout & Hnew & Hnext & Hidx); [lia | lia |].
      exists ((c, Py.slice_from 1 (Py.item lines i)) :: new).
      assert (i + Py.len ((c, Py.slice_from 1 (Py.item lines i)) :: new)
              = i + 1 + Py.len new) as Hlen
        by (unfold Py.len; simpl length; lia).
      rewrite Hlen.
      split; [now rewrite Hout, <- app_assoc|]. split; [|split].
      - intros [|j] tag text Hj.
        + now rewrite Z.add_0_r.
        + replace (i + Z.of_nat (S j)) with (i + 1 + Z.of_nat j) by lia.
          exact (Hnew j tag text Hj).
      - exact Hnext.
      - exact Hidx. }
    cbn [hunk_loop]. cbv zeta. unfold stops_hunk in *.
    destruct (String.eqb (Py.strip (Py.item lines i)) END_PATCH) eqn:He.
    { apply Hstop; [reflexivity | reflexivity |]. simpl.
      destruct (Py.startswith (Py.item lines i) "@@") eqn:Hh; [|reflexivity].
      apply header_line_is_no_end in Hh. congruence. }
    destruct (Py.startswith (Py.item lines i) "@@") eqn:Hh.
    { apply Hstop; [reflexivity | reflexivity | reflexivity]. }
    destruct (Py.startswith (Py.item lines i) " ") eqn:Hsp;
      [apply Hstep; reflexivity|].
    destruct (Py.startswith (Py.item lines i) "-") eqn:Hmi;
      [apply Hstep; reflexivity|].
    destruct (Py.startswith (Py.item lines i) "+") eqn:Hpl;
      [apply Hstep; reflexivity|].
    apply Hstop; reflexivity.
Qed.

(** X8.  The tagged lines of a parsed hunk are the lines of the patch that
    follow its [@@] line, in order: each has the prefix space, minus or plus,
    prefix and text put together are the patch line, and none of them is a
    line that ends a hunk.  The line after them, when there is one, ends the
    hunk: it is an end marker, a hunk header, or has none of the three
    prefixes.  The end index is the index of the last tagged line, except
    when the line after them starts with [@@]: then it is one less. *)
Theorem parsed_hunk_lines_verbatim
    (lines : list string) (s : Z) (h : Hunk) :
  0 <= s < Py.len lines →
  _parse_hunk lines s = Some h →
  let after := s + 1 + Py.len (hunk_lines h) in
  (∀ j tag text, hunk_lines h !! j = Some (tag, text) →
     valid_tag tag
     ∧ lines !! (Z.to_nat s + 1 + j)%nat = Some (String tag text)
     ∧ stops_hunk (String tag text) = false)
  ∧ (after < Py.len lines → stops_hunk (Py.item lines after) = true)
  ∧ hunk_end_index h
    = if Py.startswith (Py.item lines after) "@@"
      then s + Py.len (hunk_lines h) - 1
      else s + Py.len (hunk_lines h).
Proof.
  intros Hs Hp. destruct (parse_hunk_lines lines s h Hs Hp) as [Hlines _].
  revert Hp. unfold _parse_hunk. destruct (negb _); [discriminate|].
  destruct (hunk_loop_end lines (Z.to_nat (Py.len lines - (s + 1)))
              (s + 1) []) as (new & Hout & Hgo & Hnext & Hidx); [lia | lia |].
  destruct (hunk_loop _ _ _ _) as [i' hl]. simpl in Hout, Hidx. subst hl.
  intros H. injection H as <-. cbn [hunk_lines hunk_end_index] in *.
  split; [|split].
  - intros j tag text Hj. destruct (Hlines j tag text Hj) as [Hv Hl].
    split; [exact Hv|]. split; [exact Hl|].
    rewrite <- (Hgo j tag text Hj). f_equal. unfold Py.item.
    replace (Z.to_nat (s + 1 + Z.of_nat j)) with (Z.to_nat s + 1 + j)%nat
      by lia.
    now rewrite (nth_lookup_Some _ _ _ _ Hl).
  - exact Hnext.
  - rewrite Hidx. destruct (Py.startswith _ "@@"); lia.
Qed.

Lemma parsed_hunk_lines_verbatim_witness :
  (0 <= 1 < Py.len hunk_in_patch
   ∧ _parse_hunk hunk_in_patch 1
     = Some (mkHunk "def f():"
               [(" "%char, "def f():"); ("-"%char, "    old");
                ("+"%char, "    new"); (" "%char, "    tail")] 5)
   ∧ stops_hunk (Py.item hunk_in_patch 6) = true
   ∧ 5 = 1 + 4)
  ∧ (0 <= 2 < Py.len stacked_lines
     ∧ _parse_hunk stacked_lines 2 = Some (mkHunk "a" [] 1)
     ∧ Py.startswith (Py.item stacked_lines 3) "@@" = true
     ∧ 1 = 2 + 0 - 1).
Proof.
  assert (0 <= 1 < Py.len hunk_in_patch) as Hs1 by (unfold Py.len; simpl; lia).
  assert (0 <= 2 < Py.len stacked_lines) as Hs2 by (unfold Py.len; simpl; lia).
  destruct (parsed_hunk_lines_verbatim hunk_in_patch 1 _ Hs1 eq_refl)
    as (_ & Hstop & Hend).
  destruct (parsed_hunk_lines_verbatim stacked_lines 2 _ Hs2 eq_refl)
    as (_ & _ & Hend').
  split.
  - split; [exact Hs1|]. split; [reflexivity|].
    split; [apply Hstop; unfold Py.len; simpl; lia | exact Hend].
  - split; [exact Hs2|]. split; [reflexivity|].
    split; [reflexivity | exact Hend'].
Defined.

(** ** The partition of a hunk *)

Lemma parts_step_count (p : Parts) (e : ascii * string) :
  valid_tag e.1 →
  region_len (parts_step p e) + Py.len (additions (parts_step p e))
  = region_len p + Py.len (additions p) + 1.
Proof.
  destruct e as [tag text]. simpl. intros Hv.
  unfold parts_step, region_len, Py.len.
  destruct Hv as [ -> | [ -> | -> ] ]; simpl.
  - destruct (in_changes p); simpl; rewrite length_app; simpl; lia.
  - rewrite length_app; simpl; lia.
  - rewrite length_app; simpl; lia.
Qed.

Lemma fold_parts_count (hl : list (ascii * string)) (p : Parts) :
  Forall (λ e, valid_tag e.1) hl →
  region_len (fold_left parts_step hl p)
  + Py.len (additions (fold_left parts_step hl p))
  = region_len p + Py.len (additions p) + Py.len hl.
Proof.
  intros Hall. revert p. induction Hall as [|e hl He _ IH]; intros p.
  - unfold Py.len. simpl. lia.
  - cbn [fold_left]. rewrite IH, (parts_step_count p e He).
    unfold Py.len. simpl length. lia.
Qed.

Lemma parsed_hunk_tags (lines : list string) (s : Z) (h : Hunk) :
  0 <= s < Py.len lines →
  _parse_hunk lines s = Some h →
  Forall (λ e, valid_tag e.1) (hunk_lines h).
Proof.
  intros Hs Hh. apply Forall_lookup. intros j [tag text] Hj.
  now destruct (proj1 (parse_hunk_lines _ _ _ Hs Hh) j tag text Hj).
Qed.

Lemma fold_context_prefix (hl : list (ascii * string)) (p : Parts) :
  Forall (λ e, valid_tag e.1) hl →
  context_before (fold_left parts_step hl p)
  `prefix_of` (if in_changes p then context_before p
               else context_before p ++ context_lines hl).
Proof.
  intros Hall. revert p. induction Hall as [|[tag text] hl He _ IH]; intros p.
  - simpl. destruct (in_changes p); [reflexivity|].
    now rewrite app_nil_r.
  - cbn [fold_left]. specialize (IH (parts_step p (tag, text))).
    simpl in He. unfold parts_step in *. cbn [context_lines].
    destruct He as [ -> | [ -> | -> ] ]; simpl in *.
    + destruct (in_changes p); simpl in *; [exact IH|].
      now rewrite <- app_assoc in IH.
    + destruct (in_changes p); simpl in *; [exact IH|].
      etransitivity; [exact IH|]. now apply prefix_app_r.
    + destruct (in_changes p); simpl in *; [exact IH|].
      etransitivity; [exact IH|]. now rewrite app_nil_r.
Qed.

(** X9.  The partition of a parsed hunk loses no line: context before,
    removed, added and context after together are as many as the tagged
    lines.  Its [context_before] is the beginning of the sequence that the
    context search looks for. *)
Theorem parsed_hunk_partition (lines : list string) (s : Z) (h : Hunk) :
  0 <= s < Py.len lines →
  _parse_hunk lines s = Some h →
  let p := hunk_parts (hunk_lines h) in
  Py.len (context_before p) + Py.len (removals p) + Py.len (additions p)
  + Py.len (context_after p) = Py.len (hunk_lines h)
  ∧ context_before p `prefix_of` context_lines (hunk_lines h).
Proof.
  intros Hs Hh p. pose proof (parsed_hunk_tags _ _ _ Hs Hh) as Htags. split.
  - pose proof (fold_parts_count (hunk_lines h) (mkParts [] [] [] [] false)
                  Htags) as Hc.
    fold (hunk_parts (hunk_lines h)) in Hc. fold p in Hc.
    unfold region_len, Py.len in *. simpl in Hc. lia.
  - exact (fold_context_prefix (hunk_lines h) (mkParts [] [] [] [] false)
             Htags).
Qed.

Lemma parsed_hunk_partition_witness :
  let hl := [(" "%char, "def f():"); ("-"%char, "    old");
             ("+"%char, "    new"); (" "%char, "    tail")] in
  Py.len (context_before (hunk_parts hl)) + Py.len (removals (hunk_parts hl))
  + Py.len (additions (hunk_parts hl)) + Py.len (context_after (hunk_parts hl))
  = Py.len hl
  ∧ context_before (hunk_parts hl) `prefix_of` context_lines hl.
Proof.
  refine (parsed_hunk_partition hunk_in_patch 1
            (mkHunk "def f():"
               [(" "%char, "def f():"); ("-"%char, "    old");
                ("+"%char, "    new"); (" "%char, "    tail")] 5) _ eq_refl).
  unfold Py.len. simpl. lia.
Defined.

(** ** Where blocks end *)

Lemma hunk_loop_upper (lines : list string) (n : nat) (i : Z)
    (acc : list (ascii * string)) :
  (hunk_loop lines n i acc).1 <= i + Z.of_nat n.
Proof.
  revert i acc. induction n as [|n IH]; intros i acc; simpl; [lia|].
  destruct (String.eqb _ END_PATCH); [simpl; lia|].
  destruct (Py.startswith (Py.item lines i) "@@"); [simpl; lia|].
  repeat
    (match goal with
     | |- context [if ?b then _ else _] => destruct b
     end;
     [match goal with
      | |- context [hunk_loop lines n (i + 1) ?a] =>
          specialize (IH (i + 1) a); lia
      end|]).
  simpl. lia.
Qed.

Lemma parse_hunk_upper (lines : list string) (s : Z) (h : Hunk) :
  s < Py.len lines → _parse_hunk lines s = Some h →
  hunk_end_index h + 1 <= Py.len lines.
Proof.
  intros Hs. unfold _parse_hunk. destruct (negb _); [discriminate|].
  pose proof (hunk_loop_upper lines (Z.to_nat (Py.len lines - (s + 1)))
                (s + 1) []) as Hup.
  destruct (hunk_loop _ _ _ _) as [i' hl]. simpl in Hup.
  intros H. injection H as <-. simpl. lia.
Qed.

Lemma update_loop_exit (fuel : nat) (lines : list string) (i i' : Z)
    (acc hs : list Hunk) :
  i <= Py.len lines →
  update_loop fuel lines i acc = Some (i', hs) →
  i <= i' <= Py.len lines ∧ (i' = Py.len lines ∨ is_end lines i' = true).
Proof.
  revert i acc. induction fuel as [|fuel IH]; intros i acc Hi H;
    simpl in H; [discriminate|].
  destruct (Z.ltb_spec i (Py.len lines)) as [Hlt|Hge]; simpl in H.
  - destruct (is_end lines i) eqn:Hend; simpl in H.
    { injection H as <- <-. split; [lia | now right]. }
    destruct (Py.startswith (Py.item lines i) "@@").
    + destruct (_parse_hunk lines i) as [h|] eqn:Hh.
      * pose proof (parse_hunk_upper _ _ _ Hlt Hh).
        destruct (parse_hunk_end_index _ _ _ Hh) as [Hlow _].
        apply IH in H as [Hb Hor]; [split; [lia | exact Hor] | lia].
      * apply IH in H as [Hb Hor]; [split; [lia | exact Hor] | lia].
    + apply IH in H as [Hb Hor]; [split; [lia | exact Hor] | lia].
  - injection H as <- <-. split; [lia | left; lia].
Qed.

Lemma delete_loop_exit (lines : list string) (n : nat) (i : Z) :
  i <= delete_loop lines n i <= i + Z.of_nat n
  ∧ (delete_loop lines n i = i + Z.of_nat n
     ∨ is_end lines (delete_loop lines n i) = true).
Proof.
  revert i. induction n as [|n IH]; intros i; simpl; [lia|].
  destruct (is_end lines i) eqn:Hend; [split; [lia | now right]|].
  destruct (IH (i + 1)) as [Hb Hor]. split; [lia|].
  destruct Hor as [->|Hor]; [left; lia | now right].
Qed.

Lemma add_loop_exit (lines : list string) (n : nat) (i : Z)
    (acc : list string) :
  i <= (add_loop lines n i acc).1 <= i + Z.of_nat n
  ∧ ((add_loop lines n i acc).1 = i + Z.of_nat n
     ∨ is_end lines (add_loop lines n i acc).1 = true).
Proof.
  revert i acc. induction n as [|n IH]; intros i acc; simpl; [lia|].
  destruct (is_end lines i) eqn:Hend; [simpl; split; [lia | now right]|].
  destruct (Py.startswith _ "+");
    match goal with
    | |- context [add_loop lines n (i + 1) ?a] =>
        destruct (IH (i + 1) a) as [Hb Hor]; split; [lia|];
        destruct Hor as [->|Hor]; [left; lia | now right]
    end.
Qed.

Lemma find_action_upper (lines : list string) (n : nat) (i : Z)
    (act path : string) (j : Z) :
  find_action lines n i = Some (act, path, j) → j < i + Z.of_nat n.
Proof.
  revert i. induction n as [|n IH]; intros i H; simpl in H; [discriminate|].
  destruct (Py.startswith _ UPDATE_FILE); [injection H as _ _ <-; lia|].
  destruct (Py.startswith _ ADD_FILE); [injection H as _ _ <-; lia|].
  destruct (Py.startswith _ DELETE_FILE); [injection H as _ _ <-; lia|].
  destruct (String.eqb _ END_PATCH); [discriminate|].
  apply IH in H. lia.
Qed.

Lemma parse_block_end (fuel : nat) (lines : list string) (s : Z) (b : Block) :
  0 <= s →
  _parse_block fuel lines s = Some (Some b) →
  s < end_index b ∧ ends_block lines (end_index b).
Proof.
  intros Hs. unfold _parse_block, ends_block.
  destruct (find_action _ _ _) as [[[act path] i0]|] eqn:Hact;
    [|discriminate].
  pose proof (find_action_index _ _ _ _ _ _ Hact) as Hlow.
  pose proof (find_action_upper _ _ _ _ _ _ Hact) as Hup.
  assert (i0 + 1 <= Py.len lines) as Hin by lia.
  destruct (String.eqb act "Delete").
  { intros H. injection H as <-. simpl.
    destruct (delete_loop_exit lines (Z.to_nat (Py.len lines - (i0 + 1)))
                (i0 + 1)) as [Hb Hor].
    split; [lia|]. split; [lia|]. destruct Hor as [Hor|Hor]; [left; lia | now right]. }
  destruct (String.eqb act "Add").
  { destruct (add_loop_exit lines (Z.to_nat (Py.len lines - (i0 + 1)))
                (i0 + 1) []) as [Hb Hor].
    destruct (add_loop _ _ _ _) as [i' cs]. simpl in *.
    intros H. injection H as <-. simpl.
    split; [lia|]. split; [lia|]. destruct Hor as [Hor|Hor]; [left; lia | now right]. }
  destruct (update_loop fuel lines (i0 + 1) []) as [[i' hs]|] eqn:Hu;
    [|discriminate].
  destruct (update_loop_exit _ _ _ _ _ _ Hin Hu) as [Hb Hor].
  intros H. injection H as <-. simpl. split; [lia|]. split; [lia | exact Hor].
Qed.

Lemma sorted_snoc (l : list Z) (x : Z) :
  StronglySorted Z.lt l → Forall (λ y, y < x) l →
  StronglySorted Z.lt (l ++ [x]).
Proof.
  induction 1 as [|y l Hs IH Hy]; intros Hall; simpl.
  - repeat constructor.
  - apply Forall_cons in Hall as [Hyx Hall]. constructor; [auto|].
    apply Forall_app. split; [exact Hy | now constructor].
Qed.

Lemma parse_loop_order (fuel : nat) (lines : list string) (i : Z)
    (blocks parsed : list Block) :
  0 <= i →
  StronglySorted Z.lt (end_index <$> blocks) →
  Forall (λ b, end_index b < i ∧ ends_block lines (end_index b)) blocks →
  parse_loop fuel lines i blocks = Some parsed →
  StronglySorted Z.lt (end_index <$> parsed)
  ∧ Forall (λ b, ends_block lines (end_index b)) parsed.
Proof.
  revert i blocks. induction fuel as [|fuel IH];
    intros i blocks Hi Hsorted Hall H; simpl in H; [discriminate|].
  assert (∀ i', i <= i' →
            Forall (λ b, end_index b < i' ∧ ends_block lines (end_index b))
              blocks) as Hmono.
  { intros i' Hle. eapply Forall_impl; [exact Hall|]. simpl.
    intros b [? ?]. split; [lia | assumption]. }
  destruct (i <? Py.len lines)%Z.
  - destruct (String.eqb _ BEGIN_PATCH).
    + destruct (_parse_block fuel lines (i + 1)) as [[b|]|] eqn:Hb;
        [| |discriminate].
      * assert (0 <= i + 1) as Hi1 by lia.
        destruct (parse_block_end _ _ _ _ Hi1 Hb) as [Hlt Hends].
        apply (IH (end_index b + 1) (blocks ++ [b])); [lia | | | exact H].
        -- rewrite fmap_app. apply sorted_snoc; [exact Hsorted|].
           apply Forall_fmap. eapply Forall_impl; [exact Hall|]. simpl.
           intros b' [? _]. lia.
        -- apply Forall_app. split; [apply Hmono; lia|].
           constructor; [|constructor]. split; [lia | exact Hends].
      * apply (IH (i + 1 + 1) blocks); [lia | exact Hsorted | | exact H].
        apply Hmono. lia.
    + apply (IH (i + 1) blocks); [lia | exact Hsorted | | exact H].
      apply Hmono. lia.
  - injection H as <-. split; [exact Hsorted|].
    eapply Forall_impl; [exact Hall|]. now intros b [_ ?].
Qed.

(** X10.  The blocks that [parse_patch] returns are in the order of the
    text: the end indices grow strictly from block to block.  Each end index
    is that of an end marker line, or the number of lines when the text
    stops before the marker, in which case the block is still returned. *)
Theorem parsed_blocks_in_document_order
    (fuel : nat) (patch_text : string) (blocks : list Block) :
  parse_patch fuel patch_text = Some blocks →
  StronglySorted Z.lt (end_index <$> blocks)
  ∧ Forall (λ b, ends_block (Py.split_nl patch_text) (end_index b)) blocks.
Proof.
  unfold parse_patch. destruct (negb _).
  - intros H. injection H as <-. split; constructor.
  - apply parse_loop_order; [lia | constructor | constructor].
Qed.

Lemma parsed_blocks_in_document_order_witness :
  parse_patch 20 unterminated_patch
  = Some [mkBlock "Delete" "a" [] [] 2;
          mkBlock "Update" "test.txt"
            [mkHunk "line1"
               [(" "%char, "line1"); ("-"%char, "old"); ("+"%char, "new")] 8]
            [] 9]
  ∧ StronglySorted Z.lt [2; 9]
  ∧ Forall (λ b, ends_block (Py.split_nl unterminated_patch) (end_index b))
      [mkBlock "Delete" "a" [] [] 2;
       mkBlock "Update" "test.txt"
         [mkHunk "line1"
            [(" "%char, "line1"); ("-"%char, "old"); ("+"%char, "new")] 8]
         [] 9].
Proof.
  split; [reflexivity|].
  exact (parsed_blocks_in_document_order 20 unterminated_patch _ eq_refl).
Defined.

(** ** The content of an Add block *)

Lemma rstrip_cons_nonspace (c : ascii) (s : string) :
  Py.isspace c = false → ∃ r, Py.rstrip (String c s) = String c r.
Proof.
  intros Hc. simpl. destruct (Py.rstrip s); [|eauto]. rewrite Hc. eauto.
Qed.

Lemma plus_line_is_no_end (l : string) :
  String.eqb (Py.strip (String "+" l)) END_PATCH = false.
Proof.
  unfold Py.strip. change (Py.lstrip (String "+" l)) with (String "+" l).
  destruct (rstrip_cons_nonspace "+" l eq_refl) as [r ->]. reflexivity.
Qed.

Lemma until_end_plus (L : list string) (rest : list string) :
  until_end ((String "+"%char <$> L) ++ rest)
  = (String "+"%char <$> L) ++ until_end rest.
Proof.
  induction L as [|l L IH]; [reflexivity|].
  cbn [fmap list_fmap app until_end]. rewrite plus_line_is_no_end.
  f_equal. exact IH.
Qed.

Lemma added_content_app (xs ys : list string) :
  added_content (xs ++ ys) = added_content xs ++ added_content ys.
Proof. unfold added_content. now rewrite List.filter_app, fmap_app. Qed.

Lemma added_content_cons (x : string) (xs : list string) :
  added_content (x :: xs)
  = if Py.startswith x "+" then Py.slice_from 1 x :: added_content xs
    else added_content xs.
Proof.
  unfold added_content. cbn [List.filter]. cbv beta.
  now destruct (Py.startswith x "+").
Qed.

Lemma added_content_plus (L : list string) :
  added_content (String "+"%char <$> L) = L.
Proof.
  induction L as [|l L IH]; [reflexivity|].
  change (String "+"%char <$> l :: L)
    with (String "+" l :: (String "+"%char <$> L)).
  rewrite added_content_cons, IH.
  now replace (Py.startswith (String "+" l) "+") with true
    by (destruct l; reflexivity).
Qed.

Lemma add_loop_spec (lines : list string) (n : nat) (i : Z)
    (acc : list string) :
  0 <= i → Z.of_nat n = Py.len lines - i →
  add_loop lines n i acc
  = (i + Py.len (until_end (drop (Z.to_nat i) lines)),
     acc ++ added_content (until_end (drop (Z.to_nat i) lines))).
Proof.
  revert i acc. induction n as [|n IH]; intros i acc Hi Hn.
  - rewrite drop_ge by (unfold Py.len in *; lia). simpl.
    unfold Py.len. simpl. rewrite app_nil_r. f_equal. lia.
  - assert (0 <= i < Py.len lines) as Hin by lia.
    pose proof (item_lookup lines i Hin) as Hx.
    rewrite (drop_S _ _ _ Hx). cbn [add_loop until_end]. unfold is_end.
    destruct (String.eqb (Py.strip (Py.item lines i)) END_PATCH).
    + unfold Py.len. simpl. rewrite app_nil_r. f_equal. lia.
    + replace (S (Z.to_nat i)) with (Z.to_nat (i + 1)) by lia.
      rewrite added_content_cons.
      destruct (Py.startswith (Py.item lines i) "+");
        rewrite IH by lia; unfold Py.len; cbn [length];
        [rewrite <- app_assoc|]; f_equal; lia.
Qed.

Lemma startswith_split (p s : string) :
  Py.startswith s p = true → s = p +:+ Py.slice_from (String.length p) s.
Proof.
  unfold Py.startswith. revert s. induction p as [|c p IH]; intros s H;
    [reflexivity|].
  destruct s as [|a s]; simpl in H; [discriminate|].
  destruct (ascii_dec c a) as [->|]; [|discriminate].
  simpl. change (String a p +:+ Py.slice_from (String.length p) s)
    with (String a (p +:+ Py.slice_from (String.length p) s)).
  f_equal. now apply IH.
Qed.

Lemma add_header_is_no_update (line : string) :
  Py.startswith line ADD_FILE = true →
  Py.startswith line UPDATE_FILE = false.
Proof. intros H. rewrite (startswith_split _ _ H). reflexivity. Qed.

(** X11.  For an Add header at line [s] followed by the lines [L], each
    with a [+] in front, and then by [rest]: the block has the action Add,
    no hunks, and as content [L] as it is, whatever the lines of [L] hold,
    followed by what the lines of [rest] before the first end marker give
    (those that start with [+], without it; the others are skipped).  With
    the end marker first in [rest] the content is [L]. *)
Theorem add_block_content_round_trip
    (fuel : nat) (lines : list string) (s : Z) (L rest : list string) :
  0 <= s < Py.len lines →
  Py.startswith (Py.strip (Py.item lines s)) ADD_FILE = true →
  drop (Z.to_nat s + 1) lines = (String "+"%char <$> L) ++ rest →
  _parse_block fuel lines s
  = Some (Some
      (mkBlock "Add"
         (Py.strip (Py.slice_from (String.length ADD_FILE)
                      (Py.strip (Py.item lines s))))
         [] (L ++ added_content (until_end rest))
         (s + 1 + Py.len L + Py.len (until_end rest)))).
Proof.
  intros Hs Hadd Hbody. unfold _parse_block.
  destruct (Z.to_nat (Py.len lines - s)) as [|n] eqn:Hn; [lia|].
  cbn [find_action]. cbv zeta.
  rewrite (add_header_is_no_update _ Hadd), Hadd. simpl String.eqb.
  cbv iota.
  rewrite (add_loop_spec lines (Z.to_nat (Py.len lines - (s + 1))) (s + 1) [])
    by lia.
  replace (Z.to_nat (s + 1)) with (Z.to_nat s + 1)%nat by lia.
  rewrite Hbody, until_end_plus, added_content_app, added_content_plus.
  do 3 f_equal. unfold Py.len. rewrite length_app, length_fmap. lia.
Qed.

Lemma add_block_content_round_trip_witness :
  _parse_block 0 add_patch_lines 1
  = Some (Some (mkBlock "Add" "docs/new.txt" []
                  [" first"; "*** End Patch"; ""] 5)).
Proof.
  refine (add_block_content_round_trip 0 add_patch_lines 1
            [" first"; "*** End Patch"; ""] ["*** End Patch"; "+after"]
            _ eq_refl eq_refl).
  unfold Py.len. simpl. lia.
Defined.

(** ** Paths and headers are trimmed *)

Lemma rstrip_idem (s : string) : Py.rstrip (Py.rstrip s) = Py.rstrip s.
Proof.
  induction s as [|c s IH]; [reflexivity|]. simpl.
  destruct (Py.rstrip s) as [|a r] eqn:Hr.
  - destruct (Py.isspace c) eqn:Hc; [reflexivity|]. simpl. now rewrite Hc.
  - change (Py.rstrip (String c (String a r)))
      with (match Py.rstrip (String a r) with
            | "" => if Py.isspace c then "" else String c ""
            | r' => String c r'
            end).
    now rewrite IH.
Qed.

Lemma lstrip_head (s : string) :
  Py.lstrip s = ""
  ∨ ∃ c r, Py.lstrip s = String c r ∧ Py.isspace c = false.
Proof.
  induction s as [|c s IH]; simpl; [now left|].
  destruct (Py.isspace c) eqn:Hc; [exact IH | right; eauto].
Qed.

Lemma strip_trimmed (s : string) : trimmed (Py.strip s).
Proof.
  unfold trimmed, Py.strip.
  destruct (lstrip_head s) as [->|(c & r & -> & Hc)]; [reflexivity|].
  destruct (rstrip_cons_nonspace c r Hc) as [r' Hr]. rewrite Hr.
  simpl Py.lstrip. rewrite Hc, <- Hr. apply rstrip_idem.
Qed.

Lemma find_action_trimmed (lines : list string) (n : nat) (i : Z)
    (act path : string) (j : Z) :
  find_action lines n i = Some (act, path, j) → trimmed path.
Proof.
  revert i. induction n as [|n IH]; intros i H; simpl in H; [discriminate|].
  destruct (Py.startswith _ UPDATE_FILE);
    [injection H as _ <- _; apply strip_trimmed|].
  destruct (Py.startswith _ ADD_FILE);
    [injection H as _ <- _; apply strip_trimmed|].
  destruct (Py.startswith _ DELETE_FILE);
    [injection H as _ <- _; apply strip_trimmed|].
  destruct (String.eqb _ END_PATCH); [discriminate | eauto].
Qed.

Lemma parse_hunk_trimmed (lines : list string) (s : Z) (h : Hunk) :
  _parse_hunk lines s = Some h → trimmed (header h).
Proof.
  unfold _parse_hunk. destruct (negb _); [discriminate|].
  destruct (hunk_loop _ _ _ _). intros H. injection H as <-.
  apply strip_trimmed.
Qed.

Lemma update_loop_trimmed (fuel : nat) (lines : list string) (i i' : Z)
    (acc hs : list Hunk) :
  Forall (λ h, trimmed (header h)) acc →
  update_loop fuel lines i acc = Some (i', hs) →
  Forall (λ h, trimmed (header h)) hs.
Proof.
  revert i acc. induction fuel as [|fuel IH]; intros i acc Hacc H;
    simpl in H; [discriminate|].
  destruct (_ && _); [|now injection H as _ <-].
  destruct (Py.startswith _ "@@"); [|eauto].
  destruct (_parse_hunk lines i) as [h|] eqn:Hh; [|eauto].
  apply (IH (hunk_end_index h + 1) (acc ++ [h])); [|exact H]. apply Forall_app.
  split; [exact Hacc|]. constructor; [|constructor].
  exact (parse_hunk_trimmed _ _ _ Hh).
Qed.

Lemma parse_block_trimmed (fuel : nat) (lines : list string) (s : Z)
    (b : Block) :
  _parse_block fuel lines s = Some (Some b) →
  trimmed (file_path b) ∧ Forall (λ h, trimmed (header h)) (hunks b).
Proof.
  unfold _parse_block.
  destruct (find_action _ _ _) as [[[act path] i0]|] eqn:Hact;
    [|discriminate].
  apply find_action_trimmed in Hact.
  destruct (String.eqb act "Delete");
    [intros H; injection H as <-; split; [exact Hact | constructor]|].
  destruct (String.eqb act "Add").
  { destruct (add_loop _ _ _ _). intros H. injection H as <-.
    split; [exact Hact | constructor]. }
  destruct (update_loop _ _ _ _) as [[i' hs]|] eqn:Hu; [|discriminate].
  intros H. injection H as <-. split; [exact Hact|].
  exact (update_loop_trimmed _ _ _ _ _ _ (Forall_nil_2 _) Hu).
Qed.

Lemma parse_loop_trimmed (fuel : nat) (lines : list string) (i : Z)
    (blocks parsed : list Block) :
  Forall (λ b, trimmed (file_path b)
               ∧ Forall (λ h, trimmed (header h)) (hunks b)) blocks →
  parse_loop fuel lines i blocks = Some parsed →
  Forall (λ b, trimmed (file_path b)
               ∧ Forall (λ h, trimmed (header h)) (hunks b)) parsed.
Proof.
  revert i blocks. induction fuel as [|fuel IH]; intros i blocks Hinv H;
    simpl in H; [discriminate|].
  destruct (i <? Py.len lines)%Z; [|now injection H as <-].
  destruct (String.eqb _ BEGIN_PATCH); [|eauto].
  destruct (_parse_block fuel lines (i + 1)) as [[b|]|] eqn:Hb;
    [|eauto|discriminate].
  apply (IH (end_index b + 1) (blocks ++ [b])); [|exact H]. apply Forall_app.
  split; [exact Hinv|]. constructor; [|constructor].
  exact (parse_block_trimmed _ _ _ _ Hb).
Qed.

(** X12.  In every block that [parse_patch] returns, the file path and the
    header of every hunk have no white space at either end: trimming a
    trimmed text changes nothing, so they are what was between the marker
    and the end of the line without the white space around it. *)
Theorem parsed_paths_and_headers_trimmed
    (fuel : nat) (patch_text : string) (blocks : list Block) :
  parse_patch fuel patch_text = Some blocks →
  Forall (λ b, trimmed (file_path b)
               ∧ Forall (λ h, trimmed (header h)) (hunks b)) blocks.
Proof.
  unfold parse_patch. destruct (negb _).
  - intros H. injection H as <-. constructor.
  - apply parse_loop_trimmed. constructor.
Qed.

Lemma parsed_paths_and_headers_trimmed_witness :
  Forall (λ b, trimmed (file_path b)
               ∧ Forall (λ h, trimmed (header h)) (hunks b)) sample_blocks.
Proof.
  exact (parsed_paths_and_headers_trimmed 20 sample_patch sample_blocks
           eq_refl).
Defined.

(** ** The parser returns *)

Lemma parse_patch_more_fuel (fuel extra : nat) (patch_text : string)
    (blocks : list Block) :
  parse_patch fuel patch_text = Some blocks →
  parse_patch (fuel + extra) patch_text = Some blocks.
Proof.
  unfold parse_patch. destruct (negb _); [easy|].
  apply parse_loop_more_fuel.
Qed.

(** X13.  On a patch text in which no line that starts with [@@] is followed
    at once by another one, the parser returns with fuel twice the number of
    lines and two, more fuel changes nothing, and [apply_patch] returns one
    result for each parsed block, with the paths of the blocks in their
    order. *)
Theorem apply_patch_one_result_per_block
    (patch_text base_dir : string) (fs : FS) :
  no_stacked_headers (Py.split_nl patch_text) →
  ∃ blocks results fs',
    (∀ extra,
       parse_patch (2 * length (Py.split_nl patch_text) + 2 + extra)
         patch_text = Some blocks
       ∧ apply_patch (2 * length (Py.split_nl patch_text) + 2 + extra)
           patch_text base_dir fs = Some (results, fs'))
    ∧ length results = length blocks
    ∧ (λ r, r.1.1) <$> results = file_path <$> blocks.
Proof.
  intros Hfree. destruct (parse_patch_terminates _ Hfree) as [blocks Hp].
  destruct (apply_patch_parsed _ _ base_dir fs _ Hp)
    as (results & fs' & Ha & Hlen & Hpaths).
  exists blocks, results, fs'. split; [|now split].
  intros extra. pose proof (parse_patch_more_fuel _ extra _ _ Hp) as Hp'.
  split; [exact Hp'|]. unfold apply_patch in *. rewrite Hp'.
  now rewrite Hp in Ha.
Qed.

Lemma apply_patch_one_result_per_block_witness :
  no_stacked_headers (Py.split_nl sample_patch)
  ∧ ∃ blocks results fs',
      (∀ extra,
         parse_patch (2 * length (Py.split_nl sample_patch) + 2 + extra)
           sample_patch = Some blocks
         ∧ apply_patch (2 * length (Py.split_nl sample_patch) + 2 + extra)
             sample_patch "" project_fs = Some (results, fs'))
      ∧ length results = length blocks
      ∧ (λ r, r.1.1) <$> results = file_path <$> blocks.
Proof.
  assert (no_stacked_headers (Py.split_nl sample_patch)) as Hfree.
  { intros i Hi Hlt Hat. unfold Py.len in Hlt. simpl in Hlt.
    assert (i = 2 ∨ i ≠ 2) as [->|Hne] by lia; [reflexivity|].
    exfalso. revert Hat.
    assert (i = 0 ∨ i = 1 ∨ i = 3 ∨ i = 4 ∨ i = 5 ∨ i = 6 ∨ i = 7 ∨ i = 8
            ∨ i = 9 ∨ i = 10 ∨ i = 11 ∨ i = 12 ∨ i = 13 ∨ i = 14 ∨ i = 15)
      as Hcases by lia.
    repeat (destruct Hcases as [->|Hcases]; [discriminate|]).
    subst i. discriminate. }
  split; [exact Hfree|].
  exact (apply_patch_one_result_per_block sample_patch "" project_fs Hfree).
Defined.

(** ** What the context search returns *)

Lemma scan_positions_hit (lines ctx : list string) (n i0 : nat) (r : Z) :
  scan_positions lines ctx n (Z.of_nat i0) = r → r ≠ -1 →
  ∃ i, r = Z.of_nat i ∧ (i0 <= i < i0 + n)%nat
       ∧ run_matches lines (Z.of_nat i) ctx 0 = true
       ∧ ∀ k, (i0 <= k < i)%nat →
              run_matches lines (Z.of_nat k) ctx 0 = false.
Proof.
  revert i0. induction n as [|n IH]; intros i0 Hr Hne; simpl in Hr;
    [congruence|].
  destruct (run_matches lines (Z.of_nat i0) ctx 0) eqn:Hm.
  - exists i0. split; [congruence|]. split; [lia|]. split; [exact Hm|].
    intros k Hk. lia.
  - replace (Z.of_nat i0 + 1) with (Z.of_nat (S i0)) in Hr by lia.
    destruct (IH (S i0) Hr Hne) as (i & -> & Hi & Hhit & Hbefore).
    exists i. split; [reflexivity|]. split; [lia|]. split; [exact Hhit|].
    intros k Hk. destruct (decide (k = i0)) as [->|]; [exact Hm|].
    apply Hbefore. lia.
Qed.

Lemma find_hunk_location_hit (lines : list string)
    (hl : list (ascii * string)) (r : Z) :
  _find_hunk_location lines hl = r → r ≠ -1 →
  ∃ i, r = Z.of_nat i
       ∧ context_lines hl ≠ []
       ∧ (i + length (context_lines hl) <= length lines)%nat
       ∧ first_run lines (context_lines hl) i.
Proof.
  unfold _find_hunk_location.
  destruct (context_lines hl) as [|c ctx] eqn:Hctx; [congruence|].
  replace 0 with (Z.of_nat 0) by reflexivity. intros Hr Hne.
  destruct (scan_positions_hit _ _ _ _ _ Hr Hne)
    as (i & -> & Hi & Hhit & Hbefore).
  assert ((i + length (c :: ctx) <= length lines)%nat) as Hfit
    by (unfold Py.len in Hi; lia).
  exists i. split; [reflexivity|]. split; [discriminate|].
  split; [exact Hfit|]. split.
  - now apply run_matches_run_at.
  - intros k Hk Hrun. apply run_matches_run_at in Hrun; [|lia].
    rewrite Hbefore in Hrun; [discriminate | lia].
Qed.

(** X14.  When the context search returns an index other than [-1], the
    sequence it looked for is not empty, it fits into the file at that
    index, the lines there equal it line by line after trimming, and no
    lower index has such a run. *)
Theorem find_hunk_location_sound
    (lines : list string) (hl : list (ascii * string)) (r : Z) :
  _find_hunk_location lines hl = r → r ≠ -1 →
  ∃ i, r = Z.of_nat i
       ∧ context_lines hl ≠ []
       ∧ (i + length (context_lines hl) <= length lines)%nat
       ∧ first_run lines (context_lines hl) i.
Proof. exact (find_hunk_location_hit lines hl r). Qed.

Lemma find_hunk_location_sound_witness :
  _find_hunk_location ["x"; " a"; "b "; "a"; "b"]
    [(" "%char, "a"); ("-"%char, "b"); ("+"%char, "c")] = 1
  ∧ ∃ i, 1 = Z.of_nat i
         ∧ context_lines [(" "%char, "a"); ("-"%char, "b"); ("+"%char, "c")]
           ≠ []
         ∧ (i + length (context_lines
                          [(" "%char, "a"); ("-"%char, "b");
                           ("+"%char, "c")])
            <= length ["x"; " a"; "b "; "a"; "b"])%nat
         ∧ first_run ["x"; " a"; "b "; "a"; "b"]
             (context_lines
                [(" "%char, "a"); ("-"%char, "b"); ("+"%char, "c")]) i.
Proof.
  split; [reflexivity|].
  refine (find_hunk_location_sound ["x"; " a"; "b "; "a"; "b"]
            [(" "%char, "a"); ("-"%char, "b"); ("+"%char, "c")] 1
            eq_refl _).
  lia.
Defined.

(** ** A hunk that starts with a change *)

Lemma fold_context_frozen (hl : list (ascii * string)) (p : Parts) :
  in_changes p = true →
  context_before (fold_left parts_step hl p) = context_before p.
Proof.
  revert p. induction hl as [|[tag text] hl IH]; intros p Hp; [reflexivity|].
  cbn [fold_left].
  assert (in_changes (parts_step p (tag, text)) = true
          ∧ context_before (parts_step p (tag, text)) = context_before p)
    as [Hc Hb].
  { unfold parts_step. rewrite Hp.
    destruct (Ascii.eqb tag " "); [easy|].
    destruct (Ascii.eqb tag "-"); [easy|].
    destruct (Ascii.eqb tag "+"); easy. }
  now rewrite (IH _ Hc).
Qed.

Lemma change_first_no_context (tag : ascii) (text : string)
    (rest : list (ascii * string)) :
  tag = "-"%char ∨ tag = "+"%char →
  context_before (hunk_parts ((tag, text) :: rest)) = [].
Proof.
  intros Htag. unfold hunk_parts. cbn [fold_left].
  rewrite fold_context_frozen; destruct Htag as [ -> | -> ]; reflexivity.
Qed.

(** X15.  A hunk whose first tagged line is a removal or an addition has no
    leading context, so with its header found first at line [k] it starts
    at line [k + 1]: the header line and the lines before it stay, and the
    added lines and the trailing context take the place of the
    [len(removed) + len(context_after)] lines after the header line. *)
Theorem change_first_hunk_edits_after_header
    (lines : list string) (hunk : Hunk) (k : nat) (tag : ascii)
    (text : string) (rest : list (ascii * string)) :
  hunk_lines hunk = (tag, text) :: rest →
  tag = "-"%char ∨ tag = "+"%char →
  first_header_line lines (header hunk) k →
  let p := hunk_parts (hunk_lines hunk) in
  _apply_hunk_to_lines lines hunk
  = Some (take (S k) lines ++ additions p ++ context_after p
            ++ drop (S k + length (removals p) + length (context_after p))
                 lines).
Proof.
  intros Hl Htag Hk p. rewrite (apply_hunk_by_header _ _ _ Hk). fold p.
  assert (context_before p = []) as Hcb
    by (unfold p; rewrite Hl; now apply change_first_no_context).
  assert (Z.max 0 (Z.of_nat k - Py.len (context_before p) + 1)
          = Z.of_nat (S k)) as ->
    by (rewrite Hcb; unfold Py.len; simpl length; lia).
  unfold build_new_lines, Py.upto, Py.from. rewrite Nat2Z.id.
  replace (Z.to_nat (Z.of_nat (S k) + region_len p))
    with (S k + length (removals p) + length (context_after p))%nat
    by (unfold region_len, Py.len; rewrite Hcb; simpl length; lia).
  now rewrite Hcb.
Qed.

Lemma change_first_hunk_edits_after_header_witness :
  first_header_line ["original content"; "next"] "original content" 0
  ∧ _apply_hunk_to_lines ["original content"; "next"] replace_hunk
    = Some ["original content"; "updated content"].
Proof.
  assert (first_header_line ["original content"; "next"]
            "original content" 0) as Hk.
  { split; [exists "original content"; split; reflexivity|].
    intros j line _ Hlt. lia. }
  split; [exact Hk|].
  exact (change_first_hunk_edits_after_header
           ["original content"; "next"] replace_hunk 0 "-"
           "original content" [("+"%char, "updated content")]
           eq_refl (or_introl eq_refl) Hk).
Defined.

(** ** The number of lines after a hunk *)

Lemma header_match_upper (lines : list string) (hdr : string) (i : Z) :
  0 <= i → header_match lines hdr i < i + Py.len lines ∨ lines = [].
Proof.
  revert i. induction lines as [|l rest IH]; intros i Hi; [now right|]. left.
  simpl. unfold Py.len. simpl length.
  destruct (trim_eqb l hdr); [lia|].
  destruct (IH (i + 1)) as [H | -> ];
    [lia | unfold Py.len in H; lia | simpl; lia].
Qed.

Lemma locate_range (lines : list string) (hunk : Hunk) :
  locate lines hunk = -1 ∨ 0 <= locate lines hunk < Py.len lines.
Proof.
  unfold locate.
  destruct (Z.eqb_spec (header_match lines (header hunk) 0) (-1)) as [_|Hne].
  - destruct (Z.eq_dec (_find_hunk_location lines (hunk_lines hunk)) (-1))
      as [|Hf]; [now left | right].
    destruct (find_hunk_location_hit _ _ _ eq_refl Hf)
      as (i & -> & Hctx & Hfit & _).
    destruct (context_lines (hunk_lines hunk)); [congruence|].
    unfold Py.len. simpl in Hfit. lia.
  - right. destruct (header_match_range lines (header hunk) 0); [lia|].
    destruct (header_match_upper lines (header hunk) 0) as [ | -> ];
      [lia | lia | simpl in Hne; lia].
Qed.

(** X16.  When a hunk is applied, its start index lies within the file or
    at its end.  If the region fits into the file, the result has
    [len(added) - len(removed)] lines more than the file; if the region
    reaches or passes the end of the file, the result is the lines before
    the start index followed by
    [context_before + added + context_after] and nothing else. *)
Theorem applied_hunk_line_count
    (lines res : list string) (hunk : Hunk) :
  _apply_hunk_to_lines lines hunk = Some res →
  let p := hunk_parts (hunk_lines hunk) in
  let start := start_of (locate lines hunk) p in
  0 <= start <= Py.len lines
  ∧ (start + region_len p <= Py.len lines →
     Py.len res
     = Py.len lines - Py.len (removals p) + Py.len (additions p))
  ∧ (Py.len lines <= start + region_len p →
     res = take (Z.to_nat start) lines ++ context_before p ++ additions p
             ++ context_after p).
Proof.
  intros Hres p start.
  assert (locate lines hunk ≠ -1) as Hne.
  { intros Hm. unfold _apply_hunk_to_lines in Hres. rewrite Hm in Hres.
    discriminate. }
  rewrite (apply_hunk_located _ _ _ eq_refl Hne) in Hres.
  injection Hres as <-. fold p. fold start.
  assert (0 <= start <= Py.len lines) as Hstart.
  { unfold start. rewrite start_of_max.
    destruct (locate_range lines hunk) as [|Hr]; [contradiction|].
    unfold Py.len in *. lia. }
  split; [exact Hstart|]. unfold build_new_lines, Py.upto, Py.from. split.
  - intros Hfit. unfold region_len, Py.len in *.
    rewrite !length_app, length_take, length_drop. lia.
  - intros Hover. rewrite (drop_ge lines) by (unfold Py.len in *; lia).
    now rewrite app_nil_r.
Qed.

Lemma applied_hunk_line_count_witness :
  _apply_hunk_to_lines example_file example_hunk
  = Some ["a"; "b"; "c"; "new"; "d"; "e"; "f"]
  ∧ Py.len ["a"; "b"; "c"; "new"; "d"; "e"; "f"]
    = Py.len example_file - 1 + 1.
Proof.
  split; [reflexivity|].
  refine (proj1 (proj2 (applied_hunk_line_count example_file
                          ["a"; "b"; "c"; "new"; "d"; "e"; "f"]
                          example_hunk eq_refl)) _).
  vm_compute. discriminate.
Defined.

(** ** The lines an Update sees *)

Lemma split_nl_single (s : string) :
  no_newline s = true → Py.split_nl s = [s].
Proof.
  induction s as [|c s IH]; [reflexivity|]. simpl.
  intros [Hc Hs]%andb_true_iff. apply negb_true_iff in Hc.
  now rewrite Hc, (IH Hs).
Qed.

Lemma split_nl_line (w rest : string) :
  no_newline w = true →
  Py.split_nl (w +:+ String Py.newline rest) = w :: Py.split_nl rest.
Proof.
  induction w as [|c w IH]; intros Hw.
  - change ("" +:+ String Py.newline rest) with (String Py.newline rest).
    cbn [Py.split_nl]. now rewrite Ascii.eqb_refl.
  - simpl in Hw. apply andb_true_iff in Hw as [Hc Hw].
    apply negb_true_iff in Hc.
    change (String c w +:+ String Py.newline rest)
      with (String c (w +:+ String Py.newline rest)).
    cbn [Py.split_nl]. now rewrite Hc, (IH Hw).
Qed.

Lemma split_join_nl (L : list string) :
  L ≠ [] → Forall (λ w, no_newline w = true) L →
  Py.split_nl (Py.join_nl L) = L.
Proof.
  induction L as [|w L IH]; intros Hne Hall; [congruence|].
  apply Forall_cons in Hall as [Hw Hall].
  destruct L as [|w' L]; [now apply split_nl_single|].
  change (Py.join_nl (w :: w' :: L))
    with (w +:+ String Py.newline (Py.join_nl (w' :: L))).
  rewrite (split_nl_line _ _ Hw). f_equal. now apply IH.
Qed.

Lemma add_stored (fs fs' : FS) (path : string) (L : list string) :
  _apply_add fs path L = (true, fs') →
  Os.stored fs' path = Some (Py.join_nl L).
Proof.
  unfold _apply_add.
  destruct (if Py.nonempty (Path.dirname path)
               && negb (Os.path_exists fs (Path.dirname path))
            then Os.makedirs fs (Path.dirname path) else (true, fs))
    as [[] fs1]; [|discriminate].
  destruct (Os.write fs1 path (Py.join_nl L)) as [fs2|] eqn:Hw;
    [|discriminate].
  intros H. injection H as <-. now apply write_stored in Hw as [_ Hs].
Qed.

(** X17.  A file that holds on disk the lines [L] joined by line feeds, as
    an Add or an earlier Update writes it, is seen by an Update as exactly
    [L], when [L] is not empty and no line of it holds a line feed or a
    carriage return: the read hands the text over as it is, the hunks are
    applied to [L] in reverse order and the result is written joined in the
    same way, or nothing is written when a hunk fails.  So an Update that
    follows a successful Add of [L] to the same path works on [L]. *)
Theorem update_sees_written_lines
    (path : string) (L : list string) (hs : list Hunk) :
  L ≠ [] →
  Forall (λ w, no_newline w = true ∧ no_carriage_return w = true) L →
  (∀ fs, Os.stored fs path = Some (Py.join_nl L) →
     Os.read fs path = Some (Py.join_nl L)
     ∧ Py.split_nl (Py.join_nl L) = L
     ∧ _apply_update fs path hs
       = match apply_hunks (reverse hs) L with
         | None => (false, fs)
         | Some L' => (true, written fs path (Py.join_nl L'))
         end)
  ∧ (∀ fs0 fs, _apply_add fs0 path L = (true, fs) →
       _apply_update fs path hs
       = match apply_hunks (reverse hs) L with
         | None => (false, fs)
         | Some L' => (true, written fs path (Py.join_nl L'))
         end).
Proof.
  intros Hne Hall.
  assert (Forall (λ w, no_newline w = true) L) as Hnl
    by (eapply Forall_impl; [exact Hall | now intros w [? _]]).
  assert (Forall (λ w, no_carriage_return w = true) L) as Hcr
    by (eapply Forall_impl; [exact Hall | now intros w [_ ?]]).
  pose proof (split_join_nl L Hne Hnl) as Hsplit.
  assert (∀ fs, Os.stored fs path = Some (Py.join_nl L) →
            Os.read fs path = Some (Py.join_nl L)) as Hread.
  { intros fs Hs. rewrite (stored_read _ _ _ Hs).
    now rewrite universal_newlines_id by now apply join_no_carriage_return. }
  split.
  - intros fs Hs. split; [exact (Hread fs Hs)|]. split; [exact Hsplit|].
    now rewrite (apply_update_existing _ _ _ _ (Hread fs Hs)), Hsplit.
  - intros fs0 fs Hadd. apply add_stored in Hadd.
    now rewrite (apply_update_existing _ _ _ _ (Hread fs Hadd)), Hsplit.
Qed.

Lemma update_sees_written_lines_witness :
  ∃ fs,
    _apply_add empty_fs "notes.txt" ["alpha"; "beta"] = (true, fs)
    ∧ Os.stored fs "notes.txt" = Some (Py.join_nl ["alpha"; "beta"])
    ∧ _apply_update fs "notes.txt"
        [mkHunk "alpha"
           [(" "%char, "alpha"); ("-"%char, "beta"); ("+"%char, "BETA")] 0]
      = (true, written fs "notes.txt" (Py.join_nl ["alpha"; "BETA"])).
Proof.
  assert (Forall (λ w, no_newline w = true ∧ no_carriage_return w = true)
            ["alpha"; "beta"]) as Hall by (repeat constructor).
  assert (["alpha"; "beta"] ≠ []) as Hne by discriminate.
  eexists. split; [reflexivity|]. split; [reflexivity|].
  exact (proj2 (update_sees_written_lines "notes.txt" ["alpha"; "beta"]
                  [mkHunk "alpha"
                     [(" "%char, "alpha"); ("-"%char, "beta");
                      ("+"%char, "BETA")] 0] Hne Hall)
           empty_fs _ eq_refl).
Defined.

(** ** The file an Add block writes *)

Lemma split_nl_lines (s : string) :
  Forall (λ w, no_newline w = true) (Py.split_nl s).
Proof.
  induction s as [|c s IH]; [repeat constructor|]. simpl.
  destruct (Ascii.eqb c Py.newline) eqn:Hc; [now constructor|].
  destruct (Py.split_nl s) as [|w ws]; [repeat constructor; simpl; now rewrite Hc|].
  apply Forall_cons in IH as [Hw Hws]. constructor; [|exact Hws].
  simpl. now rewrite Hc, Hw.
Qed.

Lemma slice_from_no_newline (n : nat) (s : string) :
  no_newline s = true → no_newline (Py.slice_from n s) = true.
Proof.
  revert s. induction n as [|n IH]; intros s Hs; [exact Hs|].
  destruct s as [|c s]; [reflexivity|]. simpl in *.
  apply andb_true_iff in Hs as [_ Hs]. now apply IH.
Qed.

Lemma until_end_subseteq (ls : list string) : until_end ls ⊆ ls.
Proof.
  induction ls as [|l ls IH]; [reflexivity|]. simpl.
  destruct (String.eqb _ END_PATCH); [apply list_subseteq_nil|].
  intros x Hx. apply elem_of_cons in Hx as [->|Hx]; [left | right; auto].
Qed.

Lemma added_content_no_newline (body : list string) :
  Forall (λ w, no_newline w = true) body →
  Forall (λ w, no_newline w = true) (added_content body).
Proof.
  induction 1 as [|x xs Hx _ IH]; [constructor|].
  rewrite added_content_cons. destruct (Py.startswith x "+"); [|exact IH].
  constructor; [now apply slice_from_no_newline | exact IH].
Qed.

Lemma parse_block_content_lines (fuel : nat) (lines : list string) (s : Z)
    (b : Block) :
  0 <= s →
  Forall (λ w, no_newline w = true) lines →
  _parse_block fuel lines s = Some (Some b) →
  Forall (λ w, no_newline w = true) (content b).
Proof.
  intros Hs Hlines. unfold _parse_block.
  destruct (find_action _ _ _) as [[[act path] i0]|] eqn:Hact;
    [|discriminate].
  pose proof (find_action_index _ _ _ _ _ _ Hact) as Hlow.
  pose proof (find_action_upper _ _ _ _ _ _ Hact) as Hup.
  destruct (String.eqb act "Delete");
    [intros H; injection H as <-; constructor|].
  destruct (String.eqb act "Add").
  - rewrite (add_loop_spec lines _ (i0 + 1) []) by lia.
    intros H. injection H as <-. simpl.
    apply added_content_no_newline, Forall_forall. intros x Hx.
    apply until_end_subseteq in Hx.
    apply (proj1 (Forall_forall _ _)
             (Forall_drop _ (Z.to_nat (i0 + 1)) _ Hlines) x Hx).
  - destruct (update_loop _ _ _ _) as [[i' hs]|]; [|discriminate].
    intros H. injection H as <-. constructor.
Qed.

Lemma parse_loop_content_lines (fuel : nat) (lines : list string) (i : Z)
    (blocks parsed : list Block) :
  0 <= i →
  Forall (λ w, no_newline w = true) lines →
  Forall (λ b, Forall (λ w, no_newline w = true) (content b)) blocks →
  parse_loop fuel lines i blocks = Some parsed →
  Forall (λ b, Forall (λ w, no_newline w = true) (content b)) parsed.
Proof.
  intros Hi Hlines. revert i Hi blocks.
  induction fuel as [|fuel IH]; intros i Hi blocks Hinv H;
    simpl in H; [discriminate|].
  destruct (i <? Py.len lines)%Z; [|now injection H as <-].
  destruct (String.eqb _ BEGIN_PATCH); [|apply (IH (i + 1)) in H; [auto | lia | auto]].
  destruct (_parse_block fuel lines (i + 1)) as [[b|]|] eqn:Hb;
    [| apply (IH (i + 1 + 1)) in H; [auto | lia | auto] | discriminate].
  assert (0 <= i + 1) as Hi1 by lia.
  destruct (parse_block_end _ _ _ _ Hi1 Hb) as [Hlt _].
  apply (IH (end_index b + 1)) in H; [exact H | lia |].
  apply Forall_app. split; [exact Hinv|]. constructor; [|constructor].
  exact (parse_block_content_lines _ _ _ _ Hi1 Hlines Hb).
Qed.

(** X18.  No content line of a parsed block holds a line feed, so the text
    that an Add block with content writes, split at the line feeds, gives
    back the content lines: the file has as many lines as the block has
    content lines. *)
Theorem add_content_survives_split
    (fuel : nat) (patch_text : string) (blocks : list Block) :
  parse_patch fuel patch_text = Some blocks →
  Forall (λ b, Forall (λ w, no_newline w = true) (content b)
               ∧ (content b ≠ [] →
                  Py.split_nl (Py.join_nl (content b)) = content b)) blocks.
Proof.
  intros Hp.
  assert (Forall (λ b, Forall (λ w, no_newline w = true) (content b)) blocks)
    as Hall.
  { unfold parse_patch in Hp. destruct (negb _).
    - injection Hp as <-. constructor.
    - apply (parse_loop_content_lines _ _ _ _ _ (Z.le_refl 0)
               (split_nl_lines patch_text) (Forall_nil_2 _) Hp). }
  eapply Forall_impl; [exact Hall|]. simpl. intros b Hb.
  split; [exact Hb|]. intros Hne. now apply split_join_nl.
Qed.

Lemma add_content_survives_split_witness :
  Forall (λ b, Forall (λ w, no_newline w = true) (content b)
               ∧ (content b ≠ [] →
                  Py.split_nl (Py.join_nl (content b)) = content b))
    sample_blocks.
Proof.
  exact (add_content_survives_split 20 sample_patch sample_blocks eq_refl).
Defined.

(** ** Which blocks create and which remove files *)

Lemma write_keeps_files (fs fs' : FS) (p text : string) :
  Os.write fs p text = Some fs' →
  (∀ q, is_Some (files fs !! q) → is_Some (files fs' !! q))
  ∧ (Os.isfile fs p = true →
     ∀ q, is_Some (files fs' !! q) → is_Some (files fs !! q)).
Proof.
  unfold Os.write. destruct (Os.isdir fs p); [discriminate|].
  destruct (_ || _); [|discriminate]. intros H. injection H as <-. simpl.
  split.
  - intros q Hq. destruct (decide (p = q)) as [->|Hne].
    + rewrite lookup_insert_eq. eauto.
    + now rewrite lookup_insert_ne.
  - intros Hf%isfile_lookup q Hq. destruct (decide (p = q)) as [->|Hne].
    + exact Hf.
    + now rewrite lookup_insert_ne in Hq.
Qed.

Lemma update_keeps_domain (fs : FS) (path : string) (hs : list Hunk) (q : string) :
  is_Some (files (_apply_update fs path hs).2 !! q)
  ↔ is_Some (files fs !! q).
Proof.
  unfold _apply_update. destruct (negb _); [reflexivity|].
  destruct (Os.read fs path) as [text|] eqn:Hread; [|reflexivity].
  destruct (apply_hunks _ _); [|reflexivity].
  destruct (Os.write fs path _) as [fs'|] eqn:Hw; [|reflexivity].
  destruct (write_keeps_files _ _ _ _ Hw) as [Hgrow Hsame].
  destruct (read_is_file _ _ _ Hread) as (_ & Hf).
  split; [apply (Hsame Hf) | apply Hgrow].
Qed.

Lemma add_keeps_files (fs : FS) (path : string) (content : list string)
    (q : string) :
  is_Some (files fs !! q) →
  is_Some (files (_apply_add fs path content).2 !! q).
Proof.
  intros Hq. unfold _apply_add.
  assert (∀ fs1, files fs1 = files fs →
            is_Some (files (match Os.write fs1 path (Py.join_nl content) with
                            | None => (false, fs1)
                            | Some fs2 => (true, fs2)
                            end).2 !! q)) as Hstep.
  { intros fs1 Hfiles.
    destruct (Os.write fs1 path _) as [fs2|] eqn:Hw; simpl.
    - apply (proj1 (write_keeps_files _ _ _ _ Hw)). now rewrite Hfiles.
    - now rewrite Hfiles. }
  destruct (Py.nonempty _ && negb _); [|now apply Hstep].
  unfold Os.makedirs. destruct (_ || _); [exact Hq|].
  destruct (Path.no_nul (Path.dirname path) && negb _);
    [now apply Hstep | exact Hq].
Qed.

Lemma delete_adds_no_file (fs : FS) (path q : string) :
  is_Some (files (_apply_delete fs path).2 !! q) → is_Some (files fs !! q).
Proof.
  unfold _apply_delete, Os.remove. destruct (Os.path_exists fs path); [|easy].
  destruct (_ && _); [|easy]. simpl.
  destruct (decide (path = q)) as [->|Hne].
  - rewrite lookup_delete_eq. intros [? ?]. discriminate.
  - now rewrite lookup_delete_ne.
Qed.

Lemma apply_block_creates (base_dir : string) (fs : FS) (b : Block)
    (q : string) :
  action b ≠ "Add" →
  is_Some (files (apply_block base_dir fs b).2 !! q) →
  is_Some (files fs !! q).
Proof.
  intros Hact. unfold apply_block.
  destruct (String.eqb (action b) "Update").
  { pose proof (update_keeps_domain fs (Path.join base_dir (file_path b))
                  (hunks b) q) as Hu.
    destruct (_apply_update _ _ _). simpl in *. apply Hu. }
  destruct (String.eqb_spec (action b) "Add"); [contradiction|].
  destruct (String.eqb (action b) "Delete"); [|easy].
  pose proof (delete_adds_no_file fs (Path.join base_dir (file_path b)) q)
    as Hd.
  destruct (_apply_delete _ _). simpl in *. exact Hd.
Qed.

Lemma apply_block_removes (base_dir : string) (fs : FS) (b : Block)
    (q : string) :
  action b ≠ "Delete" →
  is_Some (files fs !! q) →
  is_Some (files (apply_block base_dir fs b).2 !! q).
Proof.
  intros Hact. unfold apply_block.
  destruct (String.eqb (action b) "Update").
  { pose proof (update_keeps_domain fs (Path.join base_dir (file_path b))
                  (hunks b) q) as Hu.
    destruct (_apply_update _ _ _). simpl in *. apply Hu. }
  destruct (String.eqb (action b) "Add").
  { pose proof (add_keeps_files fs (Path.join base_dir (file_path b))
                  (content b) q) as Ha.
    destruct (_apply_add _ _ _). simpl in *. exact Ha. }
  destruct (String.eqb_spec (action b) "Delete"); [contradiction | easy].
Qed.

(** X19.  Only Add blocks create files and only Delete blocks remove them:
    after a list of blocks none of which is an Add, every file that exists
    existed before; after a list of blocks none of which is a Delete, every
    file that existed still exists. *)
Theorem only_add_creates_only_delete_removes
    (base_dir : string) (fs : FS) (blocks : list Block) (q : string) :
  (Forall (λ b, action b ≠ "Add") blocks →
   is_Some (files (apply_blocks base_dir fs blocks).2 !! q) →
   is_Some (files fs !! q))
  ∧ (Forall (λ b, action b ≠ "Delete") blocks →
     is_Some (files fs !! q) →
     is_Some (files (apply_blocks base_dir fs blocks).2 !! q)).
Proof.
  split; intros Hall; revert fs;
    induction Hall as [|b bs Hb _ IH]; intros fs; try easy; simpl.
  - pose proof (apply_block_creates base_dir fs b q Hb) as Hstep.
    destruct (apply_block base_dir fs b) as [r fs1]. specialize (IH fs1).
    destruct (apply_blocks base_dir fs1 bs) as [rs fs2]. simpl in *. auto.
  - pose proof (apply_block_removes base_dir fs b q Hb) as Hstep.
    destruct (apply_block base_dir fs b) as [r fs1]. specialize (IH fs1).
    destruct (apply_blocks base_dir fs1 bs) as [rs fs2]. simpl in *. auto.
Qed.

Lemma only_add_creates_only_delete_removes_witness :
  Forall (λ b, action b ≠ "Delete")
    [mkBlock "Update" "b.txt" [] [] 0; mkBlock "Add" "c.txt" [] ["x"] 0]
  ∧ is_Some (files (apply_blocks "" project_fs
                      [mkBlock "Update" "b.txt" [] [] 0;
                       mkBlock "Add" "c.txt" [] ["x"] 0]).2 !! "b.txt").
Proof.
  assert (Forall (λ b, action b ≠ "Delete")
            [mkBlock "Update" "b.txt" [] [] 0;
             mkBlock "Add" "c.txt" [] ["x"] 0]) as Hall
    by (repeat constructor; discriminate).
  split; [exact Hall|].
  refine (proj2 (only_add_creates_only_delete_removes "" project_fs
                   [mkBlock "Update" "b.txt" [] [] 0;
                    mkBlock "Add" "c.txt" [] ["x"] 0] "b.txt") Hall _).
  exists "two". reflexivity.
Defined.

(** ** Anchoring and white space *)

Lemma trim_eqb_strip_l (a b : string) :
  trim_eqb (Py.strip a) b = trim_eqb a b.
Proof. unfold trim_eqb. now rewrite (strip_trimmed a). Qed.

Lemma item_strip (lines : list string) (i : Z) :
  Py.item (Py.strip <$> lines) i = Py.strip (Py.item lines i).
Proof.
  unfold Py.item. rewrite !nth_lookup, list_lookup_fmap.
  now destruct (lines !! Z.to_nat i).
Qed.

Lemma header_match_strip (lines : list string) (hdr : string) (i : Z) :
  header_match (Py.strip <$> lines) hdr i = header_match lines hdr i.
Proof.
  revert i. induction lines as [|l rest IH]; intros i; [reflexivity|].
  cbn [fmap list_fmap header_match].
  change (list_fmap string string Py.strip rest) with (Py.strip <$> rest).
  now rewrite trim_eqb_strip_l, IH.
Qed.

Lemma header_match_header (lines : list string) (hdr hdr' : string) (i : Z) :
  Py.strip hdr = Py.strip hdr' →
  header_match lines hdr i = header_match lines hdr' i.
Proof.
  intros Heq. revert i. induction lines as [|l rest IH]; intros i;
    [reflexivity|].
  simpl. unfold trim_eqb. now rewrite Heq, IH.
Qed.

Lemma run_matches_strip (lines ctx : list string) (i j : Z) :
  run_matches (Py.strip <$> lines) i ctx j = run_matches lines i ctx j.
Proof.
  revert j. induction ctx as [|c ctx IH]; intros j; [reflexivity|].
  simpl. now rewrite item_strip, trim_eqb_strip_l, IH.
Qed.

Lemma scan_positions_strip (lines ctx : list string) (n : nat) (i : Z) :
  scan_positions (Py.strip <$> lines) ctx n i = scan_positions lines ctx n i.
Proof.
  revert i. induction n as [|n IH]; intros i; [reflexivity|].
  simpl. now rewrite run_matches_strip, IH.
Qed.

Lemma find_hunk_location_strip (lines : list string)
    (hl : list (ascii * string)) :
  _find_hunk_location (Py.strip <$> lines) hl = _find_hunk_location lines hl.
Proof.
  unfold _find_hunk_location, Py.len. rewrite length_fmap.
  destruct (context_lines hl); [reflexivity|]. apply scan_positions_strip.
Qed.

(** X20.  Where a hunk is anchored depends on the file lines and on the
    header only up to the white space around them: two files whose lines are
    equal after trimming, and two hunks with the same tagged lines whose
    headers are equal after trimming, give the same match index, and the
    one hunk is applied exactly when the other is. *)
Theorem anchoring_ignores_outer_white_space
    (lines lines' : list string) (hunk hunk' : Hunk) :
  Py.strip <$> lines = Py.strip <$> lines' →
  Py.strip (header hunk) = Py.strip (header hunk') →
  hunk_lines hunk = hunk_lines hunk' →
  locate lines hunk = locate lines' hunk'
  ∧ (is_Some (_apply_hunk_to_lines lines hunk)
     ↔ is_Some (_apply_hunk_to_lines lines' hunk')).
Proof.
  intros Hlines Hhdr Hhl.
  assert (locate lines hunk = locate lines' hunk') as Hloc.
  { unfold locate.
    rewrite <- (header_match_strip lines), <- (find_hunk_location_strip lines).
    rewrite Hlines, header_match_strip, find_hunk_location_strip.
    now rewrite (header_match_header lines' _ _ 0 Hhdr), Hhl. }
  split; [exact Hloc|]. unfold _apply_hunk_to_lines. rewrite Hloc.
  destruct (_ =? _)%Z; [reflexivity|]. split; eauto.
Qed.

Lemma anchoring_ignores_outer_white_space_witness :
  locate ["x"; "    def f():"; "y"] (mkHunk "def f():" [] 0)
  = locate ["x"; "def f():  "; "y"] (mkHunk "  def f():" [] 0)
  ∧ (is_Some (_apply_hunk_to_lines ["x"; "    def f():"; "y"]
                (mkHunk "def f():" [] 0))
     ↔ is_Some (_apply_hunk_to_lines ["x"; "def f():  "; "y"]
                  (mkHunk "  def f():" [] 0))).
Proof.
  exact (anchoring_ignores_outer_white_space
           ["x"; "    def f():"; "y"] ["x"; "def f():  "; "y"]
           (mkHunk "def f():" [] 0) (mkHunk "  def f():" [] 0)
           eq_refl eq_refl eq_refl).
Defined.
